(** * Neko-Oracle-RWA: the price-attestation pipeline

    A shallow embedding of the commitment binder ([commit.ts]), of the two
    versions of the Soroban publisher ([publisher.ts]), of the consensus
    circuit and of the structural on-chain verifier
    ([ZK_VERIFICATION_TECHNICAL.md]), with the properties the design
    document states about them. *)

From Stdlib Require Import ZArith Zpow_facts List Lia Bool String Ascii.
From Stdlib Require Import HexString.
From Stdlib.Strings Require Import Byte.
From stdpp Require Import base option gmap.
From Equations Require Import Equations.
Import ListNotations.

Local Open Scope Z_scope.

(** ** The JavaScript values the code manipulates *)

Module Js.

(** A thrown exception: a [RangeError] of the runtime ([BigInt] of a
    non-integer, [toISOString] of an invalid date), or an [Error] with its
    message. *)
Inductive Error : Type :=
| RangeError
| JsError (message : string).

(** The outcome of awaiting a promise: a rejection or a value. *)
Definition Result (A : Type) : Type := (Error + A)%type.

(** A [number] on which the code calls [BigInt(...)]: the conversion is
    defined for integral values only; NaN, the infinities and the fractions
    make it throw a [RangeError]. *)
Inductive number : Type :=
| Integral (z : Z)
| NonIntegral.

Definition BigInt (x : number) : Result Z :=
  match x with
  | Integral z => inr z
  | NonIntegral => inl RangeError
  end.

(** A string as the sequence of its UTF-16 code units, which is what
    [charCodeAt] reads. *)
Definition str : Type := list Z.

Definition charCodeAt (a : ascii) : Z := Z.of_N (N_of_ascii a).

(** The code units of an ASCII literal. *)
Definition lit (s : string) : str := map charCodeAt (list_ascii_of_string s).

(** [ToInt32] of the language definition: the operand of a bitwise operator
    is reduced modulo 2^32 into the signed range. *)
Definition ToInt32 (z : Z) : Z := (z + 2 ^ 31) mod 2 ^ 32 - 2 ^ 31.

(** [a << n] and [a & b] on numbers that hold integers. *)
Definition shl (a n : Z) : Z := ToInt32 (Z.shiftl (ToInt32 a) n).
Definition band (a b : Z) : Z := Z.land (ToInt32 a) (ToInt32 b).

(** [n.toString(16)] of a non-negative bigint: lower-case digits, no prefix
    and no leading zero. *)
Definition toString16 (n : N) : string :=
  match n with
  | N0 => "0"%string
  | Npos p => HexString.Raw.of_pos p ""%string
  end.

End Js.

(** ** commit.ts: the commitment binder *)

Module Commit.
Import Js.

(** The body of the [for] loop of [assetIdToInt], on the accumulator. *)
Definition step (hash char : Z) : Z :=
  let hash := (shl hash 5 - hash) + char in
  band hash hash.

Definition assetIdToInt (assetId : str) : Z :=
  let hash := fold_left step assetId 0 in
  Z.abs hash.

Section Binder.

(** [circomlibjs] is an external library. A call of [buildPoseidon()]
    reads the state of the process and yields a hasher; [digest h inputs]
    stands for [BigInt(h.F.toString(h(inputs)))]. *)
Variable World : Type.
Variable Poseidon : Type.
Variable buildPoseidon : World -> Poseidon * World.
Variable digest : Poseidon -> list Z -> N.

Definition generateCommit (price timestamp : number) (assetId : str)
    (w : World) : Result string * World :=
  let (poseidon, w) := buildPoseidon w in
  let assetIdInt := assetIdToInt assetId in
  match BigInt price with
  | inl e => (inl e, w)
  | inr p =>
      match BigInt timestamp with
      | inl e => (inl e, w)
      | inr t =>
          let inputs := [p; t; assetIdInt] in
          let commitment := digest poseidon inputs in
          (inr (toString16 commitment), w)
      end
  end.

(** The attestation of the design document, and the commitment the code
    derives for it: [generateCommit] has no parameter for the proof digest,
    so the caller can pass the three other fields only. *)
Record Attestation : Type := {
  att_price : number;
  att_timestamp : number;
  att_assetId : str;
  att_proofDigest : Z
}.

Definition commitmentOf (a : Attestation) (w : World) : Result string :=
  fst (generateCommit (att_price a) (att_timestamp a) (att_assetId a) w).

(** The binder as the design document words it: four hashed inputs. *)
Definition bind_spec (price timestamp : Z) (assetId : str) (proofDigest : Z)
    (w : World) : string :=
  let (poseidon, _) := buildPoseidon w in
  toString16
    (digest poseidon [price; timestamp; assetIdToInt assetId; proofDigest]).

End Binder.

End Commit.


(** ** The Stellar SDK and the generated contract client, as the publisher
    sees them *)

Module Sdk.
Import Js.

(** The [Asset] of the oracle binding, as [toAsset] builds it:
    [{ tag: "Other", values: [assetId] }]. *)
Inductive Asset : Type :=
| Other (values : list str).

(** The argument object of the contract method [set_asset_price]. *)
Record SetAssetPriceArgs : Type := {
  asset_id : Asset;
  arg_price : Z;
  arg_timestamp : Z
}.

(** [rpc.Api.GetTransactionStatus]. *)
Inductive GetTransactionStatus : Type :=
| SUCCESS
| NOT_FOUND
| FAILED.

Definition statusName (s : GetTransactionStatus) : string :=
  match s with
  | SUCCESS => "SUCCESS"
  | NOT_FOUND => "NOT_FOUND"
  | FAILED => "FAILED"
  end.

Definition isSuccess (s : GetTransactionStatus) : bool :=
  match s with SUCCESS => true | _ => false end.
Definition isNotFound (s : GetTransactionStatus) : bool :=
  match s with NOT_FOUND => true | _ => false end.
Definition isFailed (s : GetTransactionStatus) : bool :=
  match s with FAILED => true | _ => false end.

Record GetTransactionResponse : Type := {
  status : GetTransactionStatus;
  resp_txHash : option string
}.

Record SendTransactionResponse : Type := {
  hash : option string
}.

Record SentTransaction : Type := {
  getTransactionResponse : option GetTransactionResponse;
  sendTransactionResponse : option SendTransactionResponse
}.

(** [!txHash]: [undefined] and the empty string are falsy. *)
Definition truthy (h : option string) : option string :=
  match h with
  | Some EmptyString => None
  | other => other
  end.

(** [a ?? b]: [b] is taken only when [a] is [null] or [undefined]. *)
Definition nullish {A : Type} (a b : option A) : option A :=
  match a with
  | Some x => Some x
  | None => b
  end.

(** The transaction hash the publisher reads off a sent transaction:
    [finalResponse.txHash ?? sendTransactionResponse?.hash]. *)
Definition hashOf (fr : GetTransactionResponse) (sent : SentTransaction)
  : option string :=
  nullish (resp_txHash fr)
          (match sendTransactionResponse sent with
           | Some r => hash r
           | None => None
           end).

(** A sent transaction with a final response, the status [SUCCESS] and a
    non-empty hash [h]. *)
Definition confirmed (sent : SentTransaction) (h : string) : Prop :=
  exists fr,
    getTransactionResponse sent = Some fr /\
    status fr = SUCCESS /\
    truthy (hashOf fr sent) = Some h.

(** What the process does to the outside, in the order it does it. Console
    output is left out, but for the warning of the retry wrapper. *)
Inductive Event : Type :=
| EvGetClient
| EvSetAssetPrice (args : SetAssetPriceArgs)
| EvSign
| EvSend
| EvSignAndSend
| EvGetTransaction (txHash : string)
| EvWarn (attempt bound : Z)
| EvSleep (ms : Z).

Definition isInvoke (ev : Event) : bool :=
  match ev with EvSetAssetPrice _ => true | _ => false end.
Definition isSleep (ev : Event) : bool :=
  match ev with EvSleep _ => true | _ => false end.
Definition isWarn (ev : Event) : bool :=
  match ev with EvWarn _ _ => true | _ => false end.

(** How many events of a log satisfy [p]. *)
Definition count (p : Event -> bool) (l : list Event) : nat :=
  length (List.filter p l).

Section Proc.

(** The state of everything outside the process: the RPC node and the
    ledger behind it. *)
Variable W : Type.

Definition St : Type := (W * list Event)%type.

(** An asynchronous computation: it reads and changes the outside, leaves
    its events in the log, and ends in a rejection or a value. *)
Definition M (A : Type) : Type := St -> Result A * St.

Definition ret {A : Type} (a : A) : M A := fun s => (inr a, s).

Definition throw {A : Type} (e : Error) : M A := fun s => (inl e, s).

Definition bind {A B : Type} (m : M A) (k : A -> M B) : M B :=
  fun s =>
    match m s with
    | (inl e, s') => (inl e, s')
    | (inr a, s') => k a s'
    end.

Definition lift {A : Type} (r : Result A) : M A := fun s => (r, s).

Definition emit (ev : Event) : M unit :=
  fun s => (inr tt, (fst s, snd s ++ [ev])).

(** A call of the SDK: the event, then the answer of the outside. *)
Definition call {A : Type} (ev : Event) (f : W -> Result A * W) : M A :=
  fun s =>
    let (r, w') := f (fst s) in
    (r, (w', snd s ++ [ev])).

End Proc.

Arguments ret {W A} a.
Arguments throw {W A} e.
Arguments bind {W A B} m k.
Arguments lift {W A} r.
Arguments emit {W} ev.
Arguments call {W A} ev f.

End Sdk.

Declare Scope proc_scope.
Delimit Scope proc_scope with proc.
Notation "x <- c ;; k" := (Sdk.bind c (fun x => k))
  (at level 100, c at next level, right associativity) : proc_scope.
Notation "c ;;; k" := (Sdk.bind c (fun _ => k))
  (at level 100, right associativity) : proc_scope.

(** ** publisher.ts: the publisher with the retry wrapper *)

Module Publisher.
Import Js Sdk.

Record PublishParams : Type := {
  assetId : str;
  price : number;
  timestamp : number;
  commit : string
}.

Record PublishResult : Type := {
  txHash : string;
  success : bool
}.

Definition maxRetries : Z := 3.
Definition retryDelay : Z := 1000.

Definition toAsset (assetId : str) : Asset := Other [assetId].

(** [new Date(ms).toISOString()] throws a [RangeError] when the time value
    is not a finite number of at most 8.64e15 in magnitude. *)
Definition toISOString (seconds : number) : Result unit :=
  match seconds with
  | Integral t =>
      if Z.abs (t * 1000) <=? 8640000000000000 then inr tt else inl RangeError
  | NonIntegral => inl RangeError
  end.

Section Client.

Variable W : Type.
Variable AssembledTx : Type.

(** The constructor's [clientPromise], awaited by [getClient]. *)
Variable loadClient : W -> Result unit * W.
(** [client.set_asset_price(args)]: builds and simulates the transaction. *)
Variable set_asset_price : SetAssetPriceArgs -> W -> Result AssembledTx * W.
(** [assembledTx.signAndSend()]: signs, submits and waits for the final
    response. *)
Variable signAndSend : AssembledTx -> W -> Result SentTransaction * W.

Equations? retry {T : Type} (fn : M W T) (retries : Z) (s : St W)
  : Result T * St W by wf (Z.to_nat retries) lt :=
retry fn retries s with fn s => {
  | (inr v, s1) := (inr v, s1);
  | (inl error, s1) with Z_le_gt_dec retries 0 => {
    | left _ := (inl error, s1);
    | right _ :=
        let s2 := snd (emit (EvWarn (maxRetries - retries + 1) maxRetries) s1) in
        let s3 := snd (emit (EvSleep retryDelay) s2) in
        retry fn (retries - 1) s3 } }.
Proof. lia. Qed.

Definition getClient : M W unit := call EvGetClient loadClient.

(** The closure [publishToOracle] hands to [retry]. *)
Definition attempt (params : PublishParams) : M W PublishResult :=
  (lift (toISOString (timestamp params)) ;;;
   p <- lift (BigInt (price params)) ;;
   t <- lift (BigInt (timestamp params)) ;;
   let args := {| asset_id := toAsset (assetId params);
                  arg_price := p;
                  arg_timestamp := t |} in
   assembledTx <- call (EvSetAssetPrice args) (set_asset_price args) ;;
   sentTx <- call EvSignAndSend (signAndSend assembledTx) ;;
   match getTransactionResponse sentTx with
   | None =>
       throw (JsError "Transaction was submitted but no final response was returned")
   | Some finalResponse =>
       if negb (isSuccess (status finalResponse)) then
         throw (JsError ("Transaction completed with status "
                         ++ statusName (status finalResponse)))
       else
         let txHash := hashOf finalResponse sentTx in
         match truthy txHash with
         | None =>
             throw (JsError "Unable to determine transaction hash after submission")
         | Some txHash => ret {| txHash := txHash; success := true |}
         end
   end)%proc.

Definition publishToOracle (params : PublishParams) : M W PublishResult :=
  (getClient ;;; retry (attempt params) maxRetries)%proc.

End Client.

(** The shape of the log of [retry fn retries]: the events of one call of
    [fn] and, after each failed call that is retried, a warning and the
    delay. [P] describes the events of one call. *)
Inductive retry_trace (P : list Event -> Prop) : Z -> list Event -> Prop :=
| trace_last (retries : Z) (evs : list Event) :
    P evs -> retry_trace P retries evs
| trace_again (retries : Z) (evs rest : list Event) :
    P evs -> 0 < retries ->
    retry_trace P (retries - 1) rest ->
    retry_trace P retries
      (evs ++ [EvWarn (maxRetries - retries + 1) maxRetries;
               EvSleep retryDelay] ++ rest).

(** The events of one call of the closure of [publishToOracle]. *)
Definition attempt_events (params : PublishParams) (evs : list Event) : Prop :=
  evs = [] \/
  exists p t : Z,
    price params = Integral p /\ timestamp params = Integral t /\
    let args := {| asset_id := Other [assetId params];
                   arg_price := p;
                   arg_timestamp := t |} in
    evs = [EvSetAssetPrice args] \/ evs = [EvSetAssetPrice args; EvSignAndSend].

Definition withCommit (params : PublishParams) (c : string) : PublishParams :=
  {| assetId := assetId params;
     price := price params;
     timestamp := timestamp params;
     commit := c |}.

End Publisher.

(** ** The earlier publisher: explicit sign, send and confirmation poll *)

Module LegacyPublisher.
Import Js Sdk.

Record PublishParams : Type := {
  assetId : str;
  price : Z;
  timestamp : Z;
  commit : string
}.

Record PublishResult : Type := {
  txHash : string;
  success : bool
}.

(** The second argument of [set_asset_price]. *)
Record MethodOptions : Type := {
  fee : Z;
  simulate : bool
}.

Definition pollInterval : Z := 1500.

Definition toAsset (assetId : str) : Asset := Other [assetId].

Section Client.

Variable W : Type.
Variable AssembledTx : Type.

Variable set_asset_price :
  SetAssetPriceArgs -> MethodOptions -> W -> Result AssembledTx * W.
(** [tx.sign({ signTransaction })], which signs with the feeder's keypair. *)
Variable sign : AssembledTx -> W -> Result AssembledTx * W.
Variable send : AssembledTx -> W -> Result SentTransaction * W.
(** [server.getTransaction(txHash)]. *)
Variable getTransaction : string -> W -> Result GetTransactionResponse * W.

(** Steps 1 to 3 and the first [getTransaction]: everything before the
    [while] loop. *)
Definition submit (params : PublishParams)
  : M W (string * GetTransactionResponse) :=
  (let args := {| asset_id := toAsset (assetId params);
                  arg_price := price params;
                  arg_timestamp := timestamp params |} in
   tx <- call (EvSetAssetPrice args)
              (set_asset_price args {| fee := 300000; simulate := true |}) ;;
   tx <- call EvSign (sign tx) ;;
   sendResult <- call EvSend (send tx) ;;
   let txHash := match sendTransactionResponse sendResult with
                 | Some r => hash r
                 | None => None
                 end in
   match truthy txHash with
   | None => throw (JsError "Transaction send failed: no hash returned")
   | Some txHash =>
       result <- call (EvGetTransaction txHash) (getTransaction txHash) ;;
       ret (txHash, result)
   end)%proc.

(** The [while] loop. The source puts no bound on it; [fuel] is the number
    of iterations the model is allowed to unfold, and [None] says that the
    loop is still polling when they are spent. *)
Fixpoint poll (fuel : nat) (txHash : string) (result : GetTransactionResponse)
    (s : St W) : option (Result GetTransactionResponse * St W) :=
  if isNotFound (status result) then
    match fuel with
    | O => None
    | S fuel =>
        match (emit (EvSleep pollInterval) ;;;
               call (EvGetTransaction txHash) (getTransaction txHash))%proc s with
        | (inl e, s') => Some (inl e, s')
        | (inr result, s') => poll fuel txHash result s'
        end
    end
  else Some (inr result, s).

(** The events of [n] rounds of the loop. *)
Fixpoint rounds (n : nat) (txHash : string) : list Event :=
  match n with
  | O => []
  | S n => EvSleep pollInterval :: EvGetTransaction txHash :: rounds n txHash
  end.

(** [settles txHash n result s]: from the state [s] and the last answer
    [result], the ledger lets the loop go after [n] more queries, because
    an answer other than [NOT_FOUND] has come or because the query threw. *)
Inductive settles (txHash : string)
  : nat -> GetTransactionResponse -> St W -> Prop :=
| settles_now (result : GetTransactionResponse) (s : St W) :
    isNotFound (status result) = false ->
    settles txHash 0 result s
| settles_throw (result : GetTransactionResponse) (s : St W)
    (e : Error) (w : W) :
    isNotFound (status result) = true ->
    getTransaction txHash (fst s) = (inl e, w) ->
    settles txHash 1 result s
| settles_later (n : nat) (result : GetTransactionResponse) (s : St W)
    (r : GetTransactionResponse) (w : W) :
    isNotFound (status result) = true ->
    getTransaction txHash (fst s) = (inr r, w) ->
    settles txHash n r
      (w, snd s ++ [EvSleep pollInterval; EvGetTransaction txHash]) ->
    settles txHash (S n) result s.

Definition publishToOracle (fuel : nat) (params : PublishParams) (s : St W)
  : option (Result PublishResult * St W) :=
  match submit params s with
  | (inl e, s) => Some (inl e, s)
  | (inr (txHash, result), s) =>
      match poll fuel txHash result s with
      | None => None
      | Some (inl e, s) => Some (inl e, s)
      | Some (inr result, s) =>
          if isFailed (status result) then
            Some (inl (JsError "Soroban transaction failed"), s)
          else
            Some (inr {| txHash := txHash; success := true |}, s)
      end
  end.

End Client.

End LegacyPublisher.

(** ** zk_verifier.rs: the structural verifier of the contract *)

Module ZkVerifier.

Inductive Error : Type :=
| EmptyProof
| NoPublicInput
| BadProofLen
| ZeroProof
| PriceMismatch
| TimestampMismatch
| ProofAlreadyUsed
| InvalidPublicInputs
| ProofVerificationFailed.

Definition Bytes : Type := list byte.

(** The persistent storage of the contract, as far as the verifier uses it:
    [used_proofs[proof_hash] = timestamp]. *)
Record Env : Type := {
  used_proofs : gmap N Z
}.

Definition empty_env : Env := {| used_proofs := ∅ |}.

(** The minimum the documentation gives for the proof size. *)
Definition MIN_PROOF_LEN : nat := 256.

Definition is_zero (b : byte) : bool := (Byte.to_N b =? 0)%N.

(** Modelled from the spec: [validate_proof_structure], which
    [verify_price_proof] calls and whose body the documentation does not
    show. The payload must not be empty, must have the minimum length and
    must not be all-zero bytes; the three failures are [EmptyProof],
    [BadProofLen] and [ZeroProof]. *)
Definition validate_proof_structure (proof_data : Bytes) : Error + unit :=
  match proof_data with
  | [] => inl EmptyProof
  | _ =>
      if (length proof_data <? MIN_PROOF_LEN)%nat then inl BadProofLen
      else if forallb is_zero proof_data then inl ZeroProof
      else inr tt
  end.

(** Modelled from the spec: [is_proof_used] and [store_used_proof] are the
    lookup and the write of the used-proof record under the proof's hash. *)
Definition is_proof_used (env : Env) (proof_hash : N) : bool :=
  match used_proofs env !! proof_hash with
  | Some _ => true
  | None => false
  end.

Definition store_used_proof (env : Env) (proof_hash : N) (timestamp : Z) : Env :=
  {| used_proofs := <[proof_hash := timestamp]> (used_proofs env) |}.

(** [x as u32] of an [i128]: the low 32 bits. *)
Definition as_u32 (x : Z) : Z := x mod 2 ^ 32.

Section Host.

(** [env.crypto().keccak256], the 32-byte hash read as a number. *)
Variable keccak256 : Bytes -> N.

(** [expected_price / 100000] is the division of [i128], which truncates
    towards zero. The source writes [timestamp] in the call of
    [store_used_proof]; the only timestamp in scope is
    [expected_timestamp]. A missing first public input is reported as
    [NoPublicInput]. *)
Definition verify_price_proof (env : Env) (proof_data : Bytes)
    (public_inputs : list Z) (expected_price : Z) (expected_timestamp : Z)
  : (Error + bool) * Env :=
  match validate_proof_structure proof_data with
  | inl e => (inl e, env)
  | inr _ =>
      match head public_inputs with
      | None => (inl NoPublicInput, env)
      | Some avg_price =>
          let expected_scaled := as_u32 (Z.quot expected_price 100000) in
          if negb (avg_price =? expected_scaled) then (inl PriceMismatch, env)
          else
            let proof_hash := keccak256 proof_data in
            if is_proof_used env proof_hash then (inl ProofAlreadyUsed, env)
            else (inr true, store_used_proof env proof_hash expected_timestamp)
      end
  end.

(** One submission, and a sequence of submissions against the ledger. *)
Record Submission : Type := {
  sub_proof : Bytes;
  sub_inputs : list Z;
  sub_price : Z;
  sub_timestamp : Z
}.

Definition submit (env : Env) (c : Submission) : (Error + bool) * Env :=
  verify_price_proof env (sub_proof c) (sub_inputs c) (sub_price c)
                     (sub_timestamp c).

Fixpoint run (env : Env) (cs : list Submission)
  : list (Submission * (Error + bool)) * Env :=
  match cs with
  | [] => ([], env)
  | c :: cs =>
      let (r, env) := submit env c in
      let (rs, env) := run env cs in
      ((c, r) :: rs, env)
  end.

Definition accepted (r : Error + bool) : bool :=
  match r with
  | inr _ => true
  | inl _ => false
  end.

(** The number of acceptances, in a run, of proofs with the hash [d]. *)
Definition acceptances (d : N) (rs : list (Submission * (Error + bool))) : nat :=
  length (List.filter (fun cr => accepted (snd cr)
                            && (keccak256 (sub_proof (fst cr)) =? d)%N) rs).

End Host.

End ZkVerifier.

(** ** The consensus circuit and the proof builder *)

Module Consensus.
Import Js.

(** The circuit computes on [Field], the scalar field of BN254: a value is
    an integer from 0 below the modulus, the operations are those of the
    integers modulo it, and [/] is the multiplication by the inverse. *)
Definition Fp : Z :=
  21888242871839275222246405745257275088548364400416034343698204186575808495617.

Definition fadd (a b : Z) : Z := (a + b) mod Fp.
Definition fsub (a b : Z) : Z := (a - b) mod Fp.
Definition fmul (a b : Z) : Z := (a * b) mod Fp.
Definition finv (a : Z) : Z := Zpow_mod a (Fp - 2) Fp.
Definition fdiv (a b : Z) : Z := fmul a (finv b).

(** The circuit [main] of the technical documentation, on two field
    elements: [None] when the [assert] fails, the public output otherwise.
    The comparisons are those of the integers that represent the
    elements. *)
Definition main (p1 p2 : Z) (asset_id : str) : option Z :=
  let max_price := if p1 >? p2 then p1 else p2 in
  let diff := if p1 >? p2 then fsub p1 p2 else fsub p2 p1 in
  let threshold := fdiv (fmul max_price 7) 100 in
  if diff <=? threshold then Some (fdiv (fdiv (fadd p1 p2) 2) 100000)
  else None.

Record PriceObservation : Type := {
  obs_assetId : str;
  scaledPrice : Z;
  observedAt : Z;
  sourceId : string
}.

Record ConsensusProof : Type := {
  assetId : str;
  averagedPrice : Z;
  timestamp : Z;
  proofBytes : list byte;
  publicInputs : list Z;
  proofDigest : N
}.

Inductive BuildError : Type :=
| InsufficientSources
| ToleranceExceeded
| ProofGenerationFailed
| LocalVerificationFailed.

(** The calls made to the external oracle. *)
Inductive OracleCall : Type :=
| CallProve (inputs : list Z) (assetId : str)
| CallVerifyFull (proofBytes : list byte) (publicInputs : list Z).

Definition maxPrice (prices : list Z) : Z :=
  match prices with
  | [] => 0
  | p :: ps => fold_left Z.max ps p
  end.

Definition minPrice (prices : list Z) : Z :=
  match prices with
  | [] => 0
  | p :: ps => fold_left Z.min ps p
  end.

(** The tolerance check, in the words of the design document. *)
Definition toleranceExceeded (prices : list Z) (toleranceBps : Z) : bool :=
  let diff := maxPrice prices - minPrice prices in
  diff >? maxPrice prices * toleranceBps / 10000.

Section Oracle.

(** The state of the proving service, which is not assumed idempotent. *)
Variable O : Type.
Variable Prove : list Z -> str -> O -> option (list byte * list Z) * O.
Variable VerifyFull : list byte -> list Z -> bool.
Variable Hash : list byte -> N.

(** Modelled from the spec: [build] of the ConsensusProofBuilder (the prover
    service), of which the documentation shows the circuit only. The steps
    are those of section 4.1 of the design document, in their order; the
    result carries the calls made to the oracle. The asset and the
    timestamp of the proof are those of the first observation, and the
    averaged price is the first declared public output. *)
Definition build (observations : list PriceObservation) (toleranceBps : Z)
    (o : O) : (BuildError + ConsensusProof) * O * list OracleCall :=
  let prices := map scaledPrice observations in
  match observations with
  | [] | [_] => (inl InsufficientSources, o, [])
  | first :: _ =>
      if toleranceExceeded prices toleranceBps then (inl ToleranceExceeded, o, [])
      else
        let asset := obs_assetId first in
        match Prove prices asset o with
        | (None, o) => (inl ProofGenerationFailed, o, [CallProve prices asset])
        | (Some (proofBytes, publicInputs), o) =>
            let calls := [CallProve prices asset;
                          CallVerifyFull proofBytes publicInputs] in
            if VerifyFull proofBytes publicInputs then
              (inr {| assetId := asset;
                      averagedPrice := nth 0 publicInputs 0;
                      timestamp := observedAt first;
                      proofBytes := proofBytes;
                      publicInputs := publicInputs;
                      proofDigest := Hash proofBytes |}, o, calls)
            else (inl LocalVerificationFailed, o, calls)
        end
  end.

End Oracle.

End Consensus.

(** ** Further notions, for the properties of the code beyond the design
    document *)

Module Hash31.
Import Js.

(** The polynomial in 31 of the code units, from the accumulator [h]: what
    the loop of [assetIdToInt] computes when nothing wraps around. *)
Definition poly31 (assetId : str) (h : Z) : Z :=
  fold_left (fun h char => 31 * h + char) assetId h.

End Hash31.

(** publisher.ts: the lazily imported binding. [loadOracleModule] closes
    over [cached], which is [null] until the first call. *)
Module Loader.

Section Binding.

Variable W : Type.
(** The promise of the module. *)
Variable Promise : Type.
(** [new Function("return import('oracle')")()]: starts the import. *)
Variable importOracle : W -> Promise * W.

Definition loadOracleModule (cached : option Promise) (w : W)
  : Promise * (option Promise * W) :=
  match cached with
  | Some p => (p, (cached, w))
  | None =>
      let (p, w) := importOracle w in
      (p, (Some p, w))
  end.

(** [n] calls in a row, with the promises they return. *)
Fixpoint loads (n : nat) (cached : option Promise) (w : W)
  : list Promise * (option Promise * W) :=
  match n with
  | O => ([], (cached, w))
  | S n =>
      let '(p, (cached, w)) := loadOracleModule cached w in
      let '(ps, st) := loads n cached w in
      (p :: ps, st)
  end.

End Binding.

End Loader.

Module Trace.
Import Sdk.

Definition isSign (ev : Event) : bool :=
  match ev with EvSign => true | _ => false end.
Definition isSend (ev : Event) : bool :=
  match ev with EvSend => true | _ => false end.
Definition isQuery (ev : Event) : bool :=
  match ev with EvGetTransaction _ => true | _ => false end.

End Trace.

Module LegacyTrace.
Import Sdk LegacyPublisher.

(** The arguments the earlier publisher invokes [set_asset_price] with. *)
Definition argsOf (params : PublishParams) : SetAssetPriceArgs :=
  {| asset_id := Other [assetId params];
     arg_price := price params;
     arg_timestamp := timestamp params |}.

End LegacyTrace.

Module Ledger.
Import ZkVerifier.

(** The hashes of the proofs that a run accepted, in the order of the
    submissions. *)
Definition accepted_hashes (keccak256 : Bytes -> N)
    (rs : list (Submission * (Error + bool))) : list N :=
  map (fun cr => keccak256 (sub_proof (fst cr)))
      (List.filter (fun cr => accepted (snd cr)) rs).

End Ledger.

(** ** Concrete surroundings, for the examples *)

Module Scenario.
Import Js.

(** A hasher that is rebuilt at every call and a toy arithmetic hash over
    it: the weighted sum of the inputs. *)
Definition buildToy (w : nat) : unit * nat := (tt, S w).

Definition toyDigest (_ : unit) (inputs : list Z) : N :=
  Z.to_N (fold_left (fun acc x => 31 * acc + Z.abs x) inputs 7).

(** A node that counts the calls it gets: the client loads, the simulation
    succeeds, and the final response is the one given. *)
Definition loadOk (w : nat) : Result unit * nat := (inr tt, w).

Definition simulateOk (args : Sdk.SetAssetPriceArgs) (w : nat)
  : Result unit * nat := (inr tt, S w).

Definition finalResponse (st : Sdk.GetTransactionStatus) : Sdk.SentTransaction :=
  {| Sdk.getTransactionResponse :=
       Some {| Sdk.status := st; Sdk.resp_txHash := Some "ab12"%string |};
     Sdk.sendTransactionResponse := Some {| Sdk.hash := Some "ab12"%string |} |}.

(** The ledger rejects the transaction: the final status is [FAILED]. *)
Definition sendRejected (tx : unit) (w : nat) : Result Sdk.SentTransaction * nat :=
  (inr (finalResponse Sdk.FAILED), S w).

Definition sendAccepted (tx : unit) (w : nat) : Result Sdk.SentTransaction * nat :=
  (inr (finalResponse Sdk.SUCCESS), S w).

Definition paramsTSLA : Publisher.PublishParams :=
  {| Publisher.assetId := lit "TSLA";
     Publisher.price := Integral 3005000000;
     Publisher.timestamp := Integral 1700000000;
     Publisher.commit := "1f"%string |}.

Definition argsTSLA : Sdk.SetAssetPriceArgs :=
  {| Sdk.asset_id := Sdk.Other [lit "TSLA"];
     Sdk.arg_price := 3005000000;
     Sdk.arg_timestamp := 1700000000 |}.

(** For the earlier publisher: a node whose state is the number of queries
    it still answers with [NOT_FOUND] before it reports [SUCCESS], and a
    node that never finds the transaction. *)
Definition legacySimulate (args : Sdk.SetAssetPriceArgs)
    (opts : LegacyPublisher.MethodOptions) (w : nat) : Result unit * nat :=
  (inr tt, w).

Definition legacySign (tx : unit) (w : nat) : Result unit * nat := (inr tt, w).

Definition legacySend (tx : unit) (w : nat) : Result Sdk.SentTransaction * nat :=
  (inr {| Sdk.getTransactionResponse := None;
          Sdk.sendTransactionResponse := Some {| Sdk.hash := Some "ab12"%string |} |},
   w).

Definition countdown (txHash : string) (w : nat)
  : Result Sdk.GetTransactionResponse * nat :=
  (inr {| Sdk.status := match w with O => Sdk.SUCCESS | S _ => Sdk.NOT_FOUND end;
          Sdk.resp_txHash := None |},
   Nat.pred w).

Definition neverFound (txHash : string) (w : nat)
  : Result Sdk.GetTransactionResponse * nat :=
  (inr {| Sdk.status := Sdk.NOT_FOUND; Sdk.resp_txHash := None |}, w).

Definition pending : Sdk.GetTransactionResponse :=
  {| Sdk.status := Sdk.NOT_FOUND; Sdk.resp_txHash := None |}.

Definition legacyTSLA : LegacyPublisher.PublishParams :=
  {| LegacyPublisher.assetId := lit "TSLA";
     LegacyPublisher.price := 3005000000;
     LegacyPublisher.timestamp := 1700000000;
     LegacyPublisher.commit := "1f"%string |}.

(** For the verifier: a stand-in for the hash of the host, and a proof
    payload of the minimum length. *)
Definition toyKeccak (proof_data : list byte) : N :=
  fold_left (fun acc b => (acc * 257 + Byte.to_N b + 1)%N) proof_data 0%N.

Definition proof256 : list byte := repeat x01 256.

(** For the builder: a proving service that counts its calls and declares
    the average of the first two prices, at two decimals. *)
Definition toyProve (inputs : list Z) (asset : str) (o : nat)
  : option (list byte * list Z) * nat :=
  (Some (proof256, [(nth 0 inputs 0 + nth 1 inputs 0) / 2 / 100000]), S o).

Definition toyVerifyFull (proofBytes : list byte) (publicInputs : list Z) : bool :=
  true.

Definition observation (source : string) (scaled : Z)
  : Consensus.PriceObservation :=
  {| Consensus.obs_assetId := lit "TSLA";
     Consensus.scaledPrice := scaled;
     Consensus.observedAt := 1700000000;
     Consensus.sourceId := source |}.

(** A send response without a hash. *)
Definition legacySendNoHash (tx : unit) (w : nat)
  : Result Sdk.SentTransaction * nat :=
  (inr {| Sdk.getTransactionResponse := None;
          Sdk.sendTransactionResponse := None |}, w).

(** A client that does not load, parameters with a fractional price, and a
    final response with an empty hash. *)
Definition loadFails (w : nat) : Result unit * nat :=
  (inl (JsError "Cannot find module 'oracle'"), w).

Definition paramsFraction : Publisher.PublishParams :=
  {| Publisher.assetId := lit "TSLA";
     Publisher.price := NonIntegral;
     Publisher.timestamp := Integral 1700000000;
     Publisher.commit := "1f"%string |}.

Definition emptyHashResponse : Sdk.SentTransaction :=
  {| Sdk.getTransactionResponse :=
       Some {| Sdk.status := Sdk.SUCCESS; Sdk.resp_txHash := Some ""%string |};
     Sdk.sendTransactionResponse := Some {| Sdk.hash := Some "ab12"%string |} |}.

Definition sendEmptyHash (tx : unit) (w : nat)
  : Result Sdk.SentTransaction * nat :=
  (inr emptyHashResponse, S w).

(** A call that fails every time, with another error each time: the world
    counts the calls. *)
Definition numberedError (n : nat) : Error :=
  match n with
  | 0%nat => JsError "e0"
  | 1%nat => JsError "e1"
  | 2%nat => JsError "e2"
  | _ => JsError "e3"
  end.

Definition failsNumbered : Sdk.M nat unit :=
  fun s => (inl (numberedError (fst s)),
            (S (fst s), snd s ++ [Sdk.EvSignAndSend])).

(** A call that the ledger always rejects as a replay. *)
Definition alwaysRejected : Sdk.M nat unit :=
  Sdk.call (Sdk.EvSetAssetPrice argsTSLA)
           (fun w => (inl (JsError "ProofAlreadyUsed"), w)).

End Scenario.

(** * Properties *)

(** ** The commitment binder *)

Module CommitFacts.
Import Js Commit.

Lemma ToInt32_range (z : Z) : - 2 ^ 31 <= ToInt32 z < 2 ^ 31.
Proof.
  unfold ToInt32.
  pose proof (Z.mod_pos_bound (z + 2 ^ 31) (2 ^ 32) eq_refl) as Hm.
  lia.
Qed.

Lemma band_diag (z : Z) : band z z = ToInt32 z.
Proof. unfold band. apply Z.land_diag. Qed.

Lemma step_range (hash char : Z) : - 2 ^ 31 <= step hash char < 2 ^ 31.
Proof. unfold step. cbv zeta. rewrite band_diag. apply ToInt32_range. Qed.

(** The accumulator stays a 32-bit signed integer all along the loop. *)
Lemma fold_step_range (assetId : str) (hash : Z) :
  - 2 ^ 31 <= hash < 2 ^ 31 ->
  - 2 ^ 31 <= fold_left step assetId hash < 2 ^ 31.
Proof.
  revert hash.
  induction assetId as [|char rest IH]; intros hash Hh; simpl.
  - exact Hh.
  - apply IH, step_range.
Qed.

Lemma assetIdToInt_bounds (assetId : str) : 0 <= assetIdToInt assetId <= 2 ^ 31.
Proof.
  unfold assetIdToInt. cbv zeta.
  pose proof (fold_step_range assetId 0 ltac:(lia)) as Hr.
  lia.
Qed.

Example assetIdToInt_TSLA : assetIdToInt (lit "TSLA") = 2584628.
Proof. reflexivity. Qed.

Example fold_ASBBQH5 : fold_left step (lit "ASBBQH5") 0 = -2584628.
Proof. reflexivity. Qed.

Example toString16_255 : toString16 255 = "ff"%string.
Proof. reflexivity. Qed.

(** The hexadecimal rendering loses nothing: it reads back as the number. *)
Lemma toString16_reads_back (n : N) : HexString.Raw.to_N (toString16 n) 0 = n.
Proof.
  destruct n as [|p]; [reflexivity |].
  unfold toString16. now rewrite HexString.Raw.to_N_of_pos.
Qed.

Lemma toString16_inj (n m : N) : toString16 n = toString16 m -> n = m.
Proof.
  intros H.
  rewrite <- (toString16_reads_back n), <- (toString16_reads_back m).
  now rewrite H.
Qed.

(** The commitment is a function of the three arguments and of the hasher
    that [buildPoseidon] yields; nothing else of the world enters. *)
Lemma generateCommit_unfold {World Poseidon : Type}
    (buildPoseidon : World -> Poseidon * World)
    (digest : Poseidon -> list Z -> N)
    (price timestamp : number) (assetId : str) (w : World) :
  generateCommit World Poseidon buildPoseidon digest price timestamp assetId w =
  (match BigInt price, BigInt timestamp with
   | inl e, _ => inl e
   | inr _, inl e => inl e
   | inr p, inr t =>
       inr (toString16 (digest (fst (buildPoseidon w)) [p; t; assetIdToInt assetId]))
   end, snd (buildPoseidon w)).
Proof.
  unfold generateCommit.
  destruct (buildPoseidon w) as [poseidon w']; simpl.
  destruct (BigInt price); [reflexivity|].
  destruct (BigInt timestamp); reflexivity.
Qed.

Lemma collision_Aa_BB : assetIdToInt (lit "Aa") = assetIdToInt (lit "BB").
Proof. vm_compute. reflexivity. Qed.


(** C3, as stated, fails: two attestations that differ in the proof digest
    only get the same commitment. *)
Lemma commitment_differs_with_digest_counterexample :
  ~ (forall a1 a2 : Attestation,
        att_price a1 = att_price a2 ->
        att_timestamp a1 = att_timestamp a2 ->
        att_assetId a1 = att_assetId a2 ->
        att_proofDigest a1 <> att_proofDigest a2 ->
        commitmentOf nat unit Scenario.buildToy Scenario.toyDigest a1 0%nat <>
        commitmentOf nat unit Scenario.buildToy Scenario.toyDigest a2 0%nat).
Proof.
  intros H.
  apply (H {| att_price := Integral 3005000000;
              att_timestamp := Integral 1700000000;
              att_assetId := lit "TSLA";
              att_proofDigest := 1 |}
           {| att_price := Integral 3005000000;
              att_timestamp := Integral 1700000000;
              att_assetId := lit "TSLA";
              att_proofDigest := 2 |});
    simpl; try reflexivity; discriminate.
Qed.

(** The same failure against the wording of the binder: on the toy hash the
    code's value is not the hash of the four inputs. *)
Example generateCommit_is_not_bind_spec :
  fst (generateCommit nat unit Scenario.buildToy Scenario.toyDigest
         (Integral 3005000000) (Integral 1700000000) (lit "TSLA") 0%nat) <>
  inr (bind_spec nat unit Scenario.buildToy Scenario.toyDigest
         3005000000 1700000000 (lit "TSLA") 1 0%nat).
Proof. vm_compute. intros H. injection H as H. congruence. Qed.

(** C3, amended. [generateCommit] hashes three inputs, the price, the
    timestamp and the integer of the asset, and returns the hash in
    hexadecimal; the proof digest is not an input, so the commitment of an
    attestation is the same for every proof digest, and the value is the
    four-input hash of the design document only where the two hashes
    collide. *)
Theorem generateCommit_hashes_three_inputs :
  forall (World Poseidon : Type) (buildPoseidon : World -> Poseidon * World)
         (digest : Poseidon -> list Z -> N)
         (price timestamp : Z) (assetId : str) (w : World),
    fst (generateCommit World Poseidon buildPoseidon digest
           (Integral price) (Integral timestamp) assetId w) =
    inr (toString16 (digest (fst (buildPoseidon w))
                            [price; timestamp; assetIdToInt assetId])) /\
    (forall d1 d2 : Z,
        commitmentOf World Poseidon buildPoseidon digest
          {| att_price := Integral price; att_timestamp := Integral timestamp;
             att_assetId := assetId; att_proofDigest := d1 |} w =
        commitmentOf World Poseidon buildPoseidon digest
          {| att_price := Integral price; att_timestamp := Integral timestamp;
             att_assetId := assetId; att_proofDigest := d2 |} w) /\
    (forall d : Z,
        fst (generateCommit World Poseidon buildPoseidon digest
               (Integral price) (Integral timestamp) assetId w) =
        inr (bind_spec World Poseidon buildPoseidon digest
               price timestamp assetId d w) <->
        digest (fst (buildPoseidon w))
               [price; timestamp; assetIdToInt assetId] =
        digest (fst (buildPoseidon w))
               [price; timestamp; assetIdToInt assetId; d]).
Proof.
  intros. split; [|split].
  - rewrite generateCommit_unfold. reflexivity.
  - intros d1 d2. reflexivity.
  - intros d. rewrite generateCommit_unfold. unfold bind_spec. simpl.
    destruct (buildPoseidon w) as [poseidon w']. simpl.
    split.
    + intros H. inversion H as [Hhex]. now apply toString16_inj.
    + intros H. now rewrite H.
Qed.

End CommitFacts.

(** ** The publisher with the retry wrapper *)

Module PublisherFacts.
Import Js Sdk Publisher.

Lemma count_app (p : Event -> bool) (l1 l2 : list Event) :
  count p (l1 ++ l2) = (count p l1 + count p l2)%nat.
Proof. unfold count. now rewrite List.filter_app, List.length_app. Qed.

Section Retry.

Context {W T : Type}.
Variable fn : M W T.

Lemma retry_ok (retries : Z) (s : St W) (v : T) (s1 : St W) :
  fn s = (inr v, s1) -> retry W fn retries s = (inr v, s1).
Proof. intros H. simp retry. rewrite H. reflexivity. Qed.

Lemma retry_stop (retries : Z) (s : St W) (e : Error) (s1 : St W) :
  fn s = (inl e, s1) -> retries <= 0 -> retry W fn retries s = (inl e, s1).
Proof.
  intros H Hn. simp retry. rewrite H. simpl.
  destruct (Z_le_gt_dec retries 0); [reflexivity | lia].
Qed.

Lemma retry_again (retries : Z) (s : St W) (e : Error) (s1 : St W) :
  fn s = (inl e, s1) -> 0 < retries ->
  retry W fn retries s =
  retry W fn (retries - 1)
    (fst s1, snd s1 ++ [EvWarn (maxRetries - retries + 1) maxRetries;
                        EvSleep retryDelay]).
Proof.
  intros H Hn. rewrite retry_equation_1, H. simpl.
  destruct (Z_le_gt_dec retries 0); [lia |].
  unfold emit. simpl. now rewrite <- app_assoc.
Qed.

(** The log of [retry] is the log of its calls of [fn], with a warning and
    a delay between two calls. *)
Lemma retry_log (P : list Event -> Prop) :
  (forall s, exists evs, snd (snd (fn s)) = snd s ++ evs /\ P evs) ->
  forall (retries : Z) (s : St W),
  exists evs,
    snd (snd (retry W fn retries s)) = snd s ++ evs /\
    retry_trace P retries evs.
Proof.
  intros Hfn retries.
  remember (Z.to_nat retries) as k eqn:Hk.
  revert retries Hk.
  induction k as [|k IH]; intros retries Hk s;
    destruct (Hfn s) as (evs & Hlog & HP);
    destruct (fn s) as [[e|v] s1] eqn:Hcall; simpl in Hlog.
  - rewrite (retry_stop retries s e s1 Hcall) by lia.
    exists evs. split; [exact Hlog | now apply trace_last].
  - rewrite (retry_ok retries s v s1 Hcall).
    exists evs. split; [exact Hlog | now apply trace_last].
  - rewrite (retry_again retries s e s1 Hcall) by lia.
    destruct (IH (retries - 1) ltac:(lia)
                 (fst s1, snd s1 ++ [EvWarn (maxRetries - retries + 1) maxRetries;
                                     EvSleep retryDelay]))
      as (rest & Hrest & Htrace).
    exists (evs ++ [EvWarn (maxRetries - retries + 1) maxRetries;
                    EvSleep retryDelay] ++ rest).
    split.
    + rewrite Hrest. simpl. rewrite Hlog. now rewrite <- !app_assoc.
    + apply trace_again; [exact HP | lia | exact Htrace].
  - rewrite (retry_ok retries s v s1 Hcall).
    exists evs. split; [exact Hlog | now apply trace_last].
Qed.

(** A value that [retry] returns is a value that a call of [fn] returned. *)
Lemma retry_value (retries : Z) (s : St W) (v : T) (s' : St W) :
  retry W fn retries s = (inr v, s') ->
  exists s0, fn s0 = (inr v, s').
Proof.
  remember (Z.to_nat retries) as k eqn:Hk.
  revert retries Hk s.
  induction k as [|k IH]; intros retries Hk s Hret;
    destruct (fn s) as [[e|v0] s1] eqn:Hcall.
  - rewrite (retry_stop retries s e s1 Hcall) in Hret by lia. discriminate.
  - rewrite (retry_ok retries s v0 s1 Hcall) in Hret.
    exists s. now rewrite Hcall.
  - rewrite (retry_again retries s e s1 Hcall) in Hret by lia.
    eapply (IH (retries - 1)); [lia | exact Hret].
  - rewrite (retry_ok retries s v0 s1 Hcall) in Hret.
    exists s. now rewrite Hcall.
Qed.

End Retry.

(** What a log of [retry] holds, when one call of [fn] invokes the contract
    at most once and neither warns nor sleeps. *)
Lemma retry_trace_bounds (P : list Event -> Prop) :
  (forall evs, P evs ->
     (count isInvoke evs <= 1)%nat /\
     Forall (fun ev => isSleep ev = false /\ isWarn ev = false) evs) ->
  forall (retries : Z) (evs : list Event),
    retry_trace P retries evs ->
    0 <= retries ->
    (count isInvoke evs <= Z.to_nat retries + 1)%nat /\
    (count isSleep evs <= Z.to_nat retries)%nat /\
    count isWarn evs = count isSleep evs /\
    (forall ms, In (EvSleep ms) evs -> ms = retryDelay).
Proof.
  intros HP retries evs Htrace.
  assert (Hone : forall l, P l ->
            (count isInvoke l <= 1)%nat /\ count isSleep l = 0%nat /\
            count isWarn l = 0%nat /\ forall ms, ~ In (EvSleep ms) l).
  { intros l Hl. destruct (HP l Hl) as [Hinv Hall]. split; [exact Hinv|].
    clear Hinv Hl. induction Hall as [|ev l [Hs Hw] _ IH]; cbn.
    - repeat split; intros ms [].
    - destruct IH as (IHs & IHw & IHin). unfold count in *; cbn.
      rewrite Hs, Hw. repeat split; try assumption.
      intros ms [Heq | Hin]; [subst ev; discriminate | exact (IHin ms Hin)]. }
  induction Htrace as [retries evs Hevs | retries evs rest Hevs Hpos _ IH];
    intros Hge.
  - destruct (Hone evs Hevs) as (Hi & Hs & Hw & Hin).
    repeat split; try lia. intros ms Hms. now apply Hin in Hms.
  - destruct (Hone evs Hevs) as (Hi & Hs & Hw & Hin).
    destruct (IH ltac:(lia)) as (IHi & IHs & IHw & IHin).
    rewrite !count_app.
    replace (Z.to_nat retries) with (S (Z.to_nat (retries - 1))) by lia.
    cbn. repeat split; try lia.
    intros ms Hms. apply in_app_or in Hms as [Hms | Hms];
      [now apply Hin in Hms|].
    cbn in Hms. destruct Hms as [Hms | [Hms | Hms]];
      [discriminate | now inversion Hms | exact (IHin ms Hms)].
Qed.

Lemma truthy_Some (o : option string) (h : string) :
  truthy o = Some h -> o = Some h /\ h <> EmptyString.
Proof.
  destruct o as [[|a rest]|]; simpl; intros H; try discriminate;
    inversion H; subst; split; [reflexivity | discriminate].
Qed.

Section Client.

Variable W : Type.
Variable AssembledTx : Type.
Variable loadClient : W -> Result unit * W.
Variable set_asset_price : SetAssetPriceArgs -> W -> Result AssembledTx * W.
Variable signAndSend : AssembledTx -> W -> Result SentTransaction * W.

Local Abbreviation attempt :=
  (attempt W AssembledTx set_asset_price signAndSend).
Local Abbreviation publishToOracle :=
  (publishToOracle W AssembledTx loadClient set_asset_price signAndSend).

(** Runs the closure symbolically: one case for each answer of the SDK and
    each test of the code. *)
Local Ltac run_attempt params :=
  unfold Publisher.attempt, bind, lift, call, throw, ret, toISOString, BigInt;
  destruct (timestamp params) as [t|] eqn:Ht; simpl;
  try (match goal with
       | |- context [Z.leb ?a ?b] => destruct (Z.leb a b) eqn:Hdate
       end; simpl);
  try (match goal with
       | |- context [match price params with _ => _ end] =>
           destruct (price params) as [p|] eqn:Hp
       end; simpl);
  try (match goal with
       | |- context [set_asset_price ?a ?b] =>
           destruct (set_asset_price a b) as [[e1|tx] w1] eqn:Hsim
       end; simpl);
  try (match goal with
       | |- context [signAndSend ?a ?b] =>
           destruct (signAndSend a b) as [[e2|sent] w2] eqn:Hsend
       end; simpl);
  try (match goal with
       | |- context [getTransactionResponse ?a] =>
           destruct (getTransactionResponse a) as [fr|] eqn:Hfinal
       end; simpl);
  try (match goal with
       | |- context [isSuccess ?a] => destruct (isSuccess a) eqn:Hstatus
       end; simpl);
  try (match goal with
       | |- context [truthy ?a] => destruct (truthy a) as [h|] eqn:Hhash
       end; simpl).

(** One call of the closure logs nothing, or the invocation of
    [set_asset_price] with the three fields, or the invocation and the
    submission. *)
Lemma attempt_log (params : PublishParams) (s : St W) :
  exists evs,
    snd (snd (attempt params s)) = snd s ++ evs /\ attempt_events params evs.
Proof.
  unfold attempt_events.
  run_attempt params;
    try (exists []; split; [now rewrite app_nil_r | now left]);
    try (eexists [_]; split;
         [reflexivity
         | right; exists p, t; split; [reflexivity |];
           split; [reflexivity | now left]]);
    (eexists [_; _]; split;
     [now rewrite <- app_assoc
     | right; exists p, t; split; [reflexivity |];
       split; [reflexivity | now right]]).
Qed.

(** On parameters that convert, the first thing a call of the closure does
    is the invocation. *)
Lemma attempt_invokes (params : PublishParams) (s : St W) (p0 t0 : Z) :
  price params = Integral p0 ->
  timestamp params = Integral t0 ->
  Z.abs (t0 * 1000) <= 8640000000000000 ->
  exists evs,
    snd (snd (attempt params s)) =
    snd s ++ EvSetAssetPrice {| asset_id := Other [assetId params];
                               arg_price := p0;
                               arg_timestamp := t0 |} :: evs.
Proof.
  intros Hp0 Ht0 Hd. apply Z.leb_le in Hd.
  run_attempt params; try discriminate;
    inversion Ht0; subst; try congruence;
    inversion Hp0; subst;
    try (eexists []; reflexivity);
    (eexists [_]; now rewrite <- app_assoc).
Qed.

(** The closure returns only what a confirmed transaction gives. *)
Lemma attempt_value (params : PublishParams) (s : St W)
    (r : PublishResult) (s' : St W) :
  attempt params s = (inr r, s') ->
  success r = true /\ txHash r <> EmptyString /\
  exists (tx : AssembledTx) (w : W) (sent : SentTransaction),
    fst (signAndSend tx w) = inr sent /\ confirmed sent (txHash r).
Proof.
  run_attempt params; intros Hret; try discriminate.
  inversion Hret; subst; simpl.
  destruct (truthy_Some _ _ Hhash) as [_ Hne].
  split; [reflexivity | split; [exact Hne |]].
  exists tx, w1, sent. rewrite Hsend. split; [reflexivity |].
  exists fr. repeat split; try assumption.
  now destruct (status fr).
Qed.

Lemma attempt_events_shape (params : PublishParams) (evs : list Event) :
  attempt_events params evs ->
  (count isInvoke evs <= 1)%nat /\
  Forall (fun ev => isSleep ev = false /\ isWarn ev = false) evs.
Proof.
  intros [-> | (p & t & _ & _ & [-> | ->])]; cbn; split; auto.
Qed.

Lemma attempt_events_args (params : PublishParams) (evs : list Event)
    (args : SetAssetPriceArgs) :
  attempt_events params evs ->
  In (EvSetAssetPrice args) evs ->
  exists p t : Z,
    price params = Integral p /\ timestamp params = Integral t /\
    args = {| asset_id := Other [assetId params];
              arg_price := p;
              arg_timestamp := t |}.
Proof.
  intros [-> | (p & t & Hp & Ht & [-> | ->])] Hin; cbn in Hin.
  - destruct Hin.
  - destruct Hin as [Heq | []]. inversion Heq. eauto.
  - destruct Hin as [Heq | [Heq | []]]; [|discriminate].
    inversion Heq. eauto.
Qed.

(** The invocations of a log of [retry] are invocations of its calls. *)
Lemma retry_trace_invocations (P : list Event -> Prop)
    (Q : SetAssetPriceArgs -> Prop) :
  (forall evs args, P evs -> In (EvSetAssetPrice args) evs -> Q args) ->
  forall (retries : Z) (evs : list Event),
    retry_trace P retries evs ->
    forall args, In (EvSetAssetPrice args) evs -> Q args.
Proof.
  intros HP retries evs Htrace.
  induction Htrace as [retries evs Hevs | retries evs rest Hevs Hpos _ IH];
    intros args Hin.
  - eapply HP; eassumption.
  - apply in_app_or in Hin as [Hin | Hin]; [eapply HP; eassumption |].
    cbn in Hin. destruct Hin as [Hin | [Hin | Hin]]; try discriminate.
    now apply IH.
Qed.

(** [publishToOracle] awaits the client, then runs the closure under
    [retry]. *)
Lemma publishToOracle_unfold (params : PublishParams) (s : St W) :
  publishToOracle params s =
  match loadClient (fst s) with
  | (inl e, w) => (inl e, (w, snd s ++ [EvGetClient]))
  | (inr _, w) =>
      retry W (attempt params) maxRetries (w, snd s ++ [EvGetClient])
  end.
Proof.
  unfold Publisher.publishToOracle, getClient, bind, call.
  destruct (loadClient (fst s)) as [[e|u] w]; reflexivity.
Qed.

Lemma publishToOracle_log (params : PublishParams) (s : St W) :
  exists evs,
    snd (snd (publishToOracle params s)) = snd s ++ EvGetClient :: evs /\
    (evs = [] \/ retry_trace (attempt_events params) maxRetries evs).
Proof.
  rewrite publishToOracle_unfold.
  destruct (loadClient (fst s)) as [[e|u] w].
  - exists []. split; [reflexivity | now left].
  - destruct (retry_log (attempt params) (attempt_events params)
                (attempt_log params) maxRetries (w, snd s ++ [EvGetClient]))
      as (evs & Hlog & Htrace).
    exists evs. split; [|now right].
    rewrite Hlog. simpl. now rewrite <- app_assoc.
Qed.

(** The log of [retry] starts with the log of the first call. *)
Lemma retry_log_first {T : Type} (fn : M W T) :
  (forall s, exists evs, snd (snd (fn s)) = snd s ++ evs) ->
  forall (retries : Z) (s : St W),
  exists more, snd (snd (retry W fn retries s)) = snd (snd (fn s)) ++ more.
Proof.
  intros Hfn retries s.
  destruct (fn s) as [[e|v] s1] eqn:Hcall.
  - destruct (Z_le_gt_dec retries 0) as [Hle | Hgt].
    + rewrite (retry_stop fn retries s e s1 Hcall Hle).
      exists []. now rewrite app_nil_r.
    + rewrite (retry_again fn retries s e s1 Hcall) by lia.
      destruct (retry_log fn (fun _ => True)) with
        (retries := retries - 1)
        (s := (fst s1, snd s1 ++ [EvWarn (maxRetries - retries + 1) maxRetries;
                                  EvSleep retryDelay]))
        as (evs & Hlog & _).
      { intros s0. destruct (Hfn s0) as (evs & Hevs). eauto. }
      rewrite Hlog. simpl. rewrite <- app_assoc. eauto.
  - rewrite (retry_ok fn retries s v s1 Hcall).
    exists []. now rewrite app_nil_r.
Qed.

(** C2, as stated, fails: the commitment is not part of what is submitted.
    On a node that accepts everything, two publications that differ in the
    commitment only send the same single invocation, whose arguments are
    the asset, the price and the timestamp. *)
Lemma publish_payload_counterexample :
  exists c1 c2 : string,
    c1 <> c2 /\
    Publisher.publishToOracle nat unit Scenario.loadOk Scenario.simulateOk
      Scenario.sendAccepted (withCommit Scenario.paramsTSLA c1) (0%nat, []) =
    (inr {| txHash := "ab12"; success := true |},
     (2%nat, [EvGetClient; EvSetAssetPrice Scenario.argsTSLA; EvSignAndSend])) /\
    Publisher.publishToOracle nat unit Scenario.loadOk Scenario.simulateOk
      Scenario.sendAccepted (withCommit Scenario.paramsTSLA c2) (0%nat, []) =
    (inr {| txHash := "ab12"; success := true |},
     (2%nat, [EvGetClient; EvSetAssetPrice Scenario.argsTSLA; EvSignAndSend])).
Proof.
  exists "1f"%string, "2e"%string.
  split; [discriminate | split; vm_compute; reflexivity].
Qed.

(** C2, amended. For every publish call, every transaction the publisher
    builds invokes [set_asset_price] with the asset, the price and the
    timestamp of the parameters and nothing else; the commitment does not
    influence what is submitted, and proof bytes and public inputs are no
    parameters of the call. When the parameters convert and the client
    loads, the invocation is the first thing done after the client is
    obtained. *)
Theorem publishToOracle_payload (params : PublishParams) (s : St W) :
  (exists evs,
      snd (snd (publishToOracle params s)) = snd s ++ EvGetClient :: evs /\
      forall args, In (EvSetAssetPrice args) evs ->
        exists p t : Z,
          price params = Integral p /\ timestamp params = Integral t /\
          args = {| asset_id := Other [assetId params];
                    arg_price := p;
                    arg_timestamp := t |}) /\
  (forall c : string,
      publishToOracle (withCommit params c) s = publishToOracle params s) /\
  (forall p t : Z,
      price params = Integral p ->
      timestamp params = Integral t ->
      Z.abs (t * 1000) <= 8640000000000000 ->
      fst (loadClient (fst s)) = inr tt ->
      exists evs,
        snd (snd (publishToOracle params s)) =
        snd s ++ EvGetClient
              :: EvSetAssetPrice {| asset_id := Other [assetId params];
                                    arg_price := p;
                                    arg_timestamp := t |} :: evs).
Proof.
  split; [|split].
  - destruct (publishToOracle_log params s) as (evs & Hlog & [-> | Htrace]).
    + exists []. split; [exact Hlog | intros args []].
    + exists evs. split; [exact Hlog |].
      apply (retry_trace_invocations (attempt_events params)) with
        (retries := maxRetries); [|exact Htrace].
      intros evs0 args Hevs0 Hin. eapply attempt_events_args; eassumption.
  - intros c. reflexivity.
  - intros p t Hp Ht Hd Hload.
    rewrite publishToOracle_unfold.
    destruct (loadClient (fst s)) as [[e|u] w]; simpl in Hload;
      [discriminate|].
    destruct (retry_log_first (attempt params)) with
      (retries := maxRetries) (s := (w, snd s ++ [EvGetClient]))
      as (more & Hmore).
    { intros s0. destruct (attempt_log params s0) as (evs & Hevs & _). eauto. }
    destruct (attempt_invokes params (w, snd s ++ [EvGetClient]) p t Hp Ht Hd)
      as (evs & Hevs).
    rewrite Hmore, Hevs. simpl. rewrite <- !app_assoc. simpl. eauto.
Qed.

(** C4, as stated, fails: a transaction that the ledger rejects, a permanent
    failure, is submitted four times, with three delays in between, before
    the failure is surfaced. *)
Lemma retry_permanent_counterexample :
  Publisher.publishToOracle nat unit Scenario.loadOk Scenario.simulateOk
    Scenario.sendRejected Scenario.paramsTSLA (0%nat, []) =
  (inl (JsError "Transaction completed with status FAILED"),
   (8%nat,
    [EvGetClient;
     EvSetAssetPrice Scenario.argsTSLA; EvSignAndSend;
     EvWarn 1 3; EvSleep 1000;
     EvSetAssetPrice Scenario.argsTSLA; EvSignAndSend;
     EvWarn 2 3; EvSleep 1000;
     EvSetAssetPrice Scenario.argsTSLA; EvSignAndSend;
     EvWarn 3 3; EvSleep 1000;
     EvSetAssetPrice Scenario.argsTSLA; EvSignAndSend])).
Proof. vm_compute. reflexivity. Qed.

(** One call of the closure on a transaction that ends with a status other
    than [SUCCESS]: the invocation, the submission, and the error. *)
Lemma attempt_rejected (params : PublishParams) (p t : Z)
    (st : GetTransactionStatus) :
  price params = Integral p ->
  timestamp params = Integral t ->
  Z.abs (t * 1000) <= 8640000000000000 ->
  st <> SUCCESS ->
  let args := {| asset_id := Other [assetId params];
                 arg_price := p;
                 arg_timestamp := t |} in
  (forall w, exists tx w1, set_asset_price args w = (inr tx, w1)) ->
  (forall tx w, exists sent w2 fr,
      signAndSend tx w = (inr sent, w2) /\
      getTransactionResponse sent = Some fr /\ status fr = st) ->
  forall s0 : St W,
  exists w' : W,
    attempt params s0 =
    (inl (JsError ("Transaction completed with status " ++ statusName st)),
     (w', snd s0 ++ [EvSetAssetPrice args; EvSignAndSend])).
Proof.
  intros Hp Ht Hd Hst args Hsim Hsend s0.
  apply Z.leb_le in Hd. subst args.
  unfold Publisher.attempt, bind, lift, call, throw, ret, toISOString, BigInt,
    toAsset.
  rewrite Ht, Hd, Hp. simpl.
  destruct (Hsim (fst s0)) as (tx & w1 & ->). simpl.
  destruct (Hsend tx w1) as (sent & w2 & fr & -> & Hfinal & Hstatus). simpl.
  rewrite Hfinal, Hstatus. simpl.
  exists w2.
  destruct st; [congruence | |]; simpl; now rewrite <- app_assoc.
Qed.

(** C4, amended. The retry wrapper does not classify failures: it retries
    every failure, whatever its kind, up to [maxRetries] = 3 times after the
    first call, with the fixed delay [retryDelay] = 1000 ms before each
    retry, and then surfaces the last error. A publication so invokes the
    contract at most four times and sleeps at most three times. Four calls
    that fail, each with an error, events and a state of its own, end in the
    error and the state of the fourth; a call that returns after a failure
    ends the retries with its value; and a transaction that the ledger ends
    with a status other than [SUCCESS] is invoked and submitted four
    times. *)
Theorem retry_bounded_and_unclassified (params : PublishParams) (s : St W) :
  (exists evs,
      snd (snd (publishToOracle params s)) = snd s ++ EvGetClient :: evs /\
      (count isInvoke evs <= 4)%nat /\
      (count isSleep evs <= 3)%nat /\
      count isWarn evs = count isSleep evs /\
      forall ms, In (EvSleep ms) evs -> ms = retryDelay) /\
  (forall (T : Type) (fn : M W T) (e0 e1 e2 e3 : Error) (s1 s2 s3 s4 : St W),
      fn s = (inl e0, s1) ->
      fn (fst s1, snd s1 ++ [EvWarn 1 3; EvSleep 1000]) = (inl e1, s2) ->
      fn (fst s2, snd s2 ++ [EvWarn 2 3; EvSleep 1000]) = (inl e2, s3) ->
      fn (fst s3, snd s3 ++ [EvWarn 3 3; EvSleep 1000]) = (inl e3, s4) ->
      retry W fn maxRetries s = (inl e3, s4)) /\
  (forall (T : Type) (fn : M W T) (e0 : Error) (v : T) (s1 s2 : St W),
      fn s = (inl e0, s1) ->
      fn (fst s1, snd s1 ++ [EvWarn 1 3; EvSleep 1000]) = (inr v, s2) ->
      retry W fn maxRetries s = (inr v, s2)) /\
  (forall (p t : Z) (st : GetTransactionStatus) (w0 : W),
      price params = Integral p ->
      timestamp params = Integral t ->
      Z.abs (t * 1000) <= 8640000000000000 ->
      st <> SUCCESS ->
      loadClient (fst s) = (inr tt, w0) ->
      let args := {| asset_id := Other [assetId params];
                     arg_price := p;
                     arg_timestamp := t |} in
      (forall w, exists tx w1, set_asset_price args w = (inr tx, w1)) ->
      (forall tx w, exists sent w2 fr,
          signAndSend tx w = (inr sent, w2) /\
          getTransactionResponse sent = Some fr /\ status fr = st) ->
      exists w' : W,
        publishToOracle params s =
        (inl (JsError ("Transaction completed with status "
                       ++ statusName st)),
         (w', snd s ++ [EvGetClient;
                        EvSetAssetPrice args; EvSignAndSend;
                        EvWarn 1 3; EvSleep 1000;
                        EvSetAssetPrice args; EvSignAndSend;
                        EvWarn 2 3; EvSleep 1000;
                        EvSetAssetPrice args; EvSignAndSend;
                        EvWarn 3 3; EvSleep 1000;
                        EvSetAssetPrice args; EvSignAndSend]))).
Proof.
  split; [|split; [|split]].
  - destruct (publishToOracle_log params s) as (evs & Hlog & [-> | Htrace]).
    + exists []. split; [exact Hlog |]. cbn.
      repeat split; try lia; intros ms [].
    + exists evs. split; [exact Hlog |].
      apply (retry_trace_bounds (attempt_events params)
               (attempt_events_shape params) maxRetries evs Htrace).
      unfold maxRetries. lia.
  - intros T fn e0 e1 e2 e3 s1 s2 s3 s4 H0 H1 H2 H3.
    rewrite (retry_again fn maxRetries s e0 s1 H0) by (unfold maxRetries; lia).
    change (maxRetries - maxRetries + 1) with 1.
    change retryDelay with 1000. change maxRetries with 3.
    rewrite (retry_again fn (3 - 1) _ e1 s2 H1) by lia.
    change (maxRetries - (3 - 1) + 1) with 2.
    change retryDelay with 1000. change maxRetries with 3.
    rewrite (retry_again fn (3 - 1 - 1) _ e2 s3 H2) by lia.
    change (maxRetries - (3 - 1 - 1) + 1) with 3.
    change retryDelay with 1000. change maxRetries with 3.
    now rewrite (retry_stop fn (3 - 1 - 1 - 1) _ e3 s4 H3) by lia.
  - intros T fn e0 v s1 s2 H0 H1.
    rewrite (retry_again fn maxRetries s e0 s1 H0) by (unfold maxRetries; lia).
    change (maxRetries - maxRetries + 1) with 1.
    change retryDelay with 1000. change maxRetries with 3.
    now rewrite (retry_ok fn (3 - 1) _ v s2 H1).
  - intros p t st w0 Hp Ht Hd Hst Hload args Hsim Hsend.
    pose proof (attempt_rejected params p t st Hp Ht Hd Hst Hsim Hsend)
      as Hfail.
    fold args in Hfail.
    rewrite publishToOracle_unfold, Hload.
    do 3 (match goal with
          | |- context [retry W _ ?n ?s0] =>
              let w := fresh "w" in
              let H := fresh "H" in
              destruct (Hfail s0) as (w & H);
              rewrite (retry_again _ n s0 _ _ H) by (unfold maxRetries; lia);
              cbn [fst snd]
          end).
    match goal with
    | |- context [retry W _ ?n ?s0] =>
        destruct (Hfail s0) as (w4 & H3);
        rewrite (retry_stop _ n s0 _ _ H3) by (unfold maxRetries; lia)
    end.
    exists w4. simpl. rewrite <- !app_assoc. reflexivity.
Qed.

End Client.

Lemma publishToOracle_payload_witness :
  exists evs,
    snd (snd (Publisher.publishToOracle nat unit Scenario.loadOk
                Scenario.simulateOk Scenario.sendAccepted
                Scenario.paramsTSLA (0%nat, []))) =
    [] ++ EvGetClient :: EvSetAssetPrice Scenario.argsTSLA :: evs.
Proof.
  apply (publishToOracle_payload nat unit Scenario.loadOk Scenario.simulateOk
           Scenario.sendAccepted Scenario.paramsTSLA (0%nat, [])).
  - reflexivity.
  - reflexivity.
  - simpl. lia.
  - reflexivity.
Defined.

Lemma retry_bounded_and_unclassified_witness :
  retry nat Scenario.failsNumbered maxRetries (0%nat, []) =
  (inl (JsError "e3"),
   (4%nat, [EvSignAndSend; EvWarn 1 3; EvSleep 1000;
            EvSignAndSend; EvWarn 2 3; EvSleep 1000;
            EvSignAndSend; EvWarn 3 3; EvSleep 1000;
            EvSignAndSend])) /\
  exists w' : nat,
    Publisher.publishToOracle nat unit Scenario.loadOk Scenario.simulateOk
      Scenario.sendRejected Scenario.paramsTSLA (0%nat, []) =
    (inl (JsError ("Transaction completed with status " ++ statusName FAILED)),
     (w', [] ++ [EvGetClient;
                 EvSetAssetPrice Scenario.argsTSLA; EvSignAndSend;
                 EvWarn 1 3; EvSleep 1000;
                 EvSetAssetPrice Scenario.argsTSLA; EvSignAndSend;
                 EvWarn 2 3; EvSleep 1000;
                 EvSetAssetPrice Scenario.argsTSLA; EvSignAndSend;
                 EvWarn 3 3; EvSleep 1000;
                 EvSetAssetPrice Scenario.argsTSLA; EvSignAndSend])).
Proof.
  pose proof (retry_bounded_and_unclassified nat unit Scenario.loadOk
                Scenario.simulateOk Scenario.sendRejected Scenario.paramsTSLA
                (0%nat, [])) as (_ & Hlast & _ & Hrejected).
  split.
  - apply (Hlast unit Scenario.failsNumbered
             (JsError "e0") (JsError "e1") (JsError "e2") (JsError "e3")
             (1%nat, [EvSignAndSend])
             (2%nat, [EvSignAndSend; EvWarn 1 3; EvSleep 1000; EvSignAndSend])
             (3%nat, [EvSignAndSend; EvWarn 1 3; EvSleep 1000;
                      EvSignAndSend; EvWarn 2 3; EvSleep 1000;
                      EvSignAndSend]));
      reflexivity.
  - apply (Hrejected 3005000000 1700000000 FAILED 0%nat).
    + reflexivity.
    + reflexivity.
    + simpl. lia.
    + discriminate.
    + reflexivity.
    + intros w. exists tt, (S w). reflexivity.
    + intros tx w.
      exists (Scenario.finalResponse FAILED), (S w),
        {| status := FAILED; resp_txHash := Some "ab12"%string |}.
      repeat split; reflexivity.
Defined.

End PublisherFacts.

(** ** The earlier publisher and its confirmation poll *)

Module LegacyFacts.
Import Js Sdk LegacyPublisher.

Section Client.

Variable W : Type.
Variable AssembledTx : Type.
Variable set_asset_price :
  SetAssetPriceArgs -> MethodOptions -> W -> Result AssembledTx * W.
Variable sign : AssembledTx -> W -> Result AssembledTx * W.
Variable send : AssembledTx -> W -> Result SentTransaction * W.
Variable getTransaction : string -> W -> Result GetTransactionResponse * W.

Local Abbreviation poll := (poll W getTransaction).
Local Abbreviation settles := (settles W getTransaction).
Local Abbreviation submit :=
  (submit W AssembledTx set_asset_price sign send getTransaction).
Local Abbreviation publishToOracle :=
  (publishToOracle W AssembledTx set_asset_price sign send getTransaction).

(** One round of the loop, when the last answer is [NOT_FOUND]. *)
Lemma poll_round (fuel : nat) (txHash : string)
    (result : GetTransactionResponse) (s : St W) :
  isNotFound (status result) = true ->
  poll (S fuel) txHash result s =
  match getTransaction txHash (fst s) with
  | (inl e, w) =>
      Some (inl e, (w, snd s ++ [EvSleep pollInterval; EvGetTransaction txHash]))
  | (inr r, w) =>
      poll fuel txHash r
           (w, snd s ++ [EvSleep pollInterval; EvGetTransaction txHash])
  end.
Proof.
  intros Hnf. simpl. rewrite Hnf.
  unfold bind, emit, call. simpl.
  destruct (getTransaction txHash (fst s)) as [[e|r] w];
    now rewrite <- app_assoc.
Qed.

Lemma poll_done (fuel : nat) (txHash : string)
    (result : GetTransactionResponse) (s : St W) :
  isNotFound (status result) = false ->
  poll fuel txHash result s = Some (inr result, s).
Proof. intros Hnf. destruct fuel; simpl; now rewrite Hnf. Qed.

(** If the ledger settles after [n] queries, the loop ends, with any fuel
    of at least [n], after exactly [n] rounds, each one the fixed delay and
    one query. *)
Lemma settles_poll (txHash : string) (n : nat)
    (result : GetTransactionResponse) (s : St W) :
  settles txHash n result s ->
  forall fuel, (n <= fuel)%nat ->
  exists out,
    poll fuel txHash result s = Some out /\
    snd (snd out) = snd s ++ rounds n txHash /\
    match fst out with
    | inr r => isNotFound (status r) = false
    | inl _ => True
    end.
Proof.
  induction 1 as [result s Hnf | result s e w Hnf Hget
                 | n result s r w Hnf Hget _ IH]; intros fuel Hfuel.
  - rewrite (poll_done fuel txHash result s Hnf).
    eexists. split; [reflexivity |]. simpl. now rewrite app_nil_r.
  - destruct fuel as [|fuel]; [lia |].
    rewrite (poll_round fuel txHash result s Hnf), Hget.
    eexists. split; [reflexivity |]. simpl. auto.
  - destruct fuel as [|fuel]; [lia |].
    rewrite (poll_round fuel txHash result s Hnf), Hget.
    destruct (IH fuel ltac:(lia)) as (out & Hout & Hlog & Hterm).
    exists out. split; [exact Hout |]. split; [|exact Hterm].
    rewrite Hlog. simpl. now rewrite <- app_assoc.
Qed.

(** Conversely, the loop ends only if the ledger settles. *)
Lemma poll_settles (fuel : nat) (txHash : string)
    (result : GetTransactionResponse) (s : St W)
    (out : Result GetTransactionResponse * St W) :
  poll fuel txHash result s = Some out ->
  exists n, (n <= fuel)%nat /\ settles txHash n result s.
Proof.
  revert result s.
  induction fuel as [|fuel IH]; intros result s Hpoll;
    destruct (isNotFound (status result)) eqn:Hnf.
  - simpl in Hpoll. rewrite Hnf in Hpoll. discriminate.
  - exists 0%nat. split; [lia | now apply settles_now].
  - rewrite (poll_round fuel txHash result s Hnf) in Hpoll.
    destruct (getTransaction txHash (fst s)) as [[e|r] w] eqn:Hget.
    + exists 1%nat. split; [lia | eapply settles_throw; eassumption].
    + destruct (IH _ _ Hpoll) as (n & Hn & Hsettles).
      exists (S n). split; [lia | eapply settles_later; eassumption].
  - exists 0%nat. split; [lia | now apply settles_now].
Qed.

(** A response that the loop returns is the one it was given or an answer
    of the ledger. *)
Lemma poll_answer (fuel : nat) (txHash : string)
    (result : GetTransactionResponse) (s : St W)
    (r : GetTransactionResponse) (s' : St W) :
  poll fuel txHash result s = Some (inr r, s') ->
  r = result \/ exists w, fst (getTransaction txHash w) = inr r.
Proof.
  revert result s.
  induction fuel as [|fuel IH]; intros result s Hpoll;
    destruct (isNotFound (status result)) eqn:Hnf.
  - simpl in Hpoll. rewrite Hnf in Hpoll. discriminate.
  - rewrite (poll_done 0 txHash result s Hnf) in Hpoll.
    inversion Hpoll. now left.
  - rewrite (poll_round fuel txHash result s Hnf) in Hpoll.
    destruct (getTransaction txHash (fst s)) as [[e|r0] w] eqn:Hget;
      [discriminate |].
    right. destruct (IH _ _ Hpoll) as [-> | Hw]; [|exact Hw].
    exists (fst s). now rewrite Hget.
  - rewrite (poll_done (S fuel) txHash result s Hnf) in Hpoll.
    inversion Hpoll. now left.
Qed.

(** What [submit] returns is a non-empty hash and the ledger's first answer
    for it. *)
Lemma submit_value (params : PublishParams) (s : St W)
    (txHash : string) (result : GetTransactionResponse) (s' : St W) :
  submit params s = (inr (txHash, result), s') ->
  txHash <> EmptyString /\
  exists w, fst (getTransaction txHash w) = inr result.
Proof.
  unfold LegacyPublisher.submit, bind, call, throw, ret. simpl.
  destruct (set_asset_price _ _ (fst s)) as [[e|tx] w1]; simpl;
    [discriminate |].
  destruct (sign tx w1) as [[e|tx'] w2]; simpl; [discriminate |].
  destruct (send tx' w2) as [[e|sent] w3]; simpl; [discriminate |].
  destruct (truthy _) as [h|] eqn:Hh; simpl; [|discriminate].
  destruct (getTransaction h w3) as [[e|r] w4] eqn:Hget; simpl;
    [discriminate |].
  intros Heq. inversion Heq; subst.
  split; [exact (proj2 (PublisherFacts.truthy_Some _ _ Hh)) |].
  exists w3. now rewrite Hget.
Qed.

(** A response that the loop returns is not [NOT_FOUND]. *)
Lemma poll_value (fuel : nat) (txHash : string)
    (result : GetTransactionResponse) (s : St W)
    (r : GetTransactionResponse) (s' : St W) :
  poll fuel txHash result s = Some (inr r, s') ->
  isNotFound (status r) = false.
Proof.
  intros Hpoll.
  destruct (poll_settles fuel txHash result s _ Hpoll) as (n & Hn & Hs).
  destruct (settles_poll txHash n result s Hs fuel Hn)
    as (out & Hout & _ & Hterm).
  rewrite Hpoll in Hout. inversion Hout; subst. exact Hterm.
Qed.

(** C5, amended. The confirmation poll of the earlier publisher queries the
    ledger every [pollInterval] = 1500 ms until an answer other than
    [NOT_FOUND] comes or a query throws: it ends exactly when the ledger
    settles, after as many rounds as the ledger takes. There is no maximum
    wait and no timeout error: for every [n] there is a ledger on which the
    loop runs [n + 1] rounds and no fewer. *)
Theorem poll_ends_when_ledger_settles (txHash : string)
    (result : GetTransactionResponse) (s : St W) :
  (forall n : nat,
      settles txHash n result s ->
      forall fuel, (n <= fuel)%nat ->
      exists out,
        poll fuel txHash result s = Some out /\
        snd (snd out) = snd s ++ rounds n txHash /\
        match fst out with
        | inr r => isNotFound (status r) = false
        | inl _ => True
        end) /\
  (forall (fuel : nat) out,
      poll fuel txHash result s = Some out ->
      exists n, (n <= fuel)%nat /\ settles txHash n result s) /\
  (forall n : nat,
      LegacyPublisher.poll nat Scenario.countdown n txHash
        Scenario.pending (n, []) = None /\
      LegacyPublisher.poll nat Scenario.countdown (S n) txHash
        Scenario.pending (n, []) =
      Some (inr {| status := SUCCESS; resp_txHash := None |},
            (0%nat, rounds (S n) txHash))).
Proof.
  split; [|split].
  - intros n Hs fuel Hfuel. now apply settles_poll.
  - intros fuel out Hpoll. eapply poll_settles. exact Hpoll.
  - intros n.
    enough (H : forall l,
               LegacyPublisher.poll nat Scenario.countdown n txHash
                 Scenario.pending (n, l) = None /\
               LegacyPublisher.poll nat Scenario.countdown (S n) txHash
                 Scenario.pending (n, l) =
               Some (inr {| status := SUCCESS; resp_txHash := None |},
                     (0%nat, l ++ rounds (S n) txHash))) by exact (H []).
    induction n as [|n IH]; intros l.
    + split; [reflexivity |].
      cbn. unfold bind, emit, call. cbn. now rewrite <- app_assoc.
    + destruct (IH ((l ++ [EvSleep pollInterval]) ++ [EvGetTransaction txHash]))
        as [IHnone IHsome].
      split.
      * cbn. unfold bind, emit, call. cbn. exact IHnone.
      * change (LegacyPublisher.poll nat Scenario.countdown (S (S n)) txHash
                  Scenario.pending (S n, l))
          with (LegacyPublisher.poll nat Scenario.countdown (S n) txHash
                  Scenario.pending
                  (n, (l ++ [EvSleep pollInterval]) ++ [EvGetTransaction txHash])).
        rewrite IHsome. rewrite <- !app_assoc. reflexivity.
Qed.

End Client.

Lemma neverFound_poll (fuel : nat) (txHash : string) (s : St nat) :
  LegacyPublisher.poll nat Scenario.neverFound fuel txHash Scenario.pending s
  = None.
Proof.
  revert s. induction fuel as [|fuel IH]; intros s; [reflexivity |].
  cbn. unfold bind, emit, call. cbn. apply IH.
Qed.

(** C5, as stated, fails: on a ledger that never finds the transaction the
    publication never ends, with a timeout error or otherwise, however many
    rounds the loop is given. *)
Lemma poll_never_ends_counterexample :
  ~ exists (fuel : nat) out,
      LegacyPublisher.publishToOracle nat unit Scenario.legacySimulate
        Scenario.legacySign Scenario.legacySend Scenario.neverFound
        fuel Scenario.legacyTSLA (0%nat, []) = Some out.
Proof.
  intros (fuel & out & H).
  unfold LegacyPublisher.publishToOracle in H.
  change (LegacyPublisher.submit nat unit Scenario.legacySimulate
            Scenario.legacySign Scenario.legacySend Scenario.neverFound
            Scenario.legacyTSLA (0%nat, []))
    with (@inr Error _ ("ab12"%string, Scenario.pending),
          (0%nat, [EvSetAssetPrice Scenario.argsTSLA; EvSign; EvSend;
                   EvGetTransaction "ab12"])) in H.
  cbv beta iota in H. rewrite neverFound_poll in H. discriminate.
Qed.

Lemma poll_ends_when_ledger_settles_witness :
  exists out,
    LegacyPublisher.poll nat Scenario.countdown 5 "ab12" Scenario.pending
      (1%nat, []) = Some out /\
    snd (snd out) = [] ++ rounds 2 "ab12" /\
    match fst out with
    | inr r => isNotFound (status r) = false
    | inl _ => True
    end.
Proof.
  apply (proj1 (poll_ends_when_ledger_settles nat Scenario.countdown "ab12"
                  Scenario.pending (1%nat, [])) 2%nat).
  - eapply settles_later; [reflexivity | reflexivity |].
    eapply settles_later; [reflexivity | reflexivity |].
    apply settles_now. reflexivity.
  - lia.
Defined.

End LegacyFacts.

(** ** What the two publishers return *)

Module ResultFacts.
Import Js Sdk.

(** C9. [publishToOracle] never returns a failed result, in either version
    of the publisher: a returned value has [success = true] and a non-empty
    transaction hash, and it comes from a transaction with a final response
    of status [SUCCESS] (from a polled answer that is neither [NOT_FOUND]
    nor [FAILED] in the earlier version); every other outcome is a thrown
    exception. *)
Theorem publishToOracle_returns_success_only :
  (forall (W AssembledTx : Type)
          (loadClient : W -> Result unit * W)
          (set_asset_price : SetAssetPriceArgs -> W -> Result AssembledTx * W)
          (signAndSend : AssembledTx -> W -> Result SentTransaction * W)
          (params : Publisher.PublishParams) (s s' : St W)
          (r : Publisher.PublishResult),
      Publisher.publishToOracle W AssembledTx loadClient set_asset_price
        signAndSend params s = (inr r, s') ->
      Publisher.success r = true /\
      Publisher.txHash r <> EmptyString /\
      exists (tx : AssembledTx) (w : W) (sent : SentTransaction),
        fst (signAndSend tx w) = inr sent /\
        confirmed sent (Publisher.txHash r)) /\
  (forall (W AssembledTx : Type)
          (set_asset_price : SetAssetPriceArgs -> LegacyPublisher.MethodOptions
                             -> W -> Result AssembledTx * W)
          (sign : AssembledTx -> W -> Result AssembledTx * W)
          (send : AssembledTx -> W -> Result SentTransaction * W)
          (getTransaction : string -> W -> Result GetTransactionResponse * W)
          (fuel : nat) (params : LegacyPublisher.PublishParams) (s s' : St W)
          (r : LegacyPublisher.PublishResult),
      LegacyPublisher.publishToOracle W AssembledTx set_asset_price sign send
        getTransaction fuel params s = Some (inr r, s') ->
      LegacyPublisher.success r = true /\
      LegacyPublisher.txHash r <> EmptyString /\
      exists (w : W) (final : GetTransactionResponse),
        fst (getTransaction (LegacyPublisher.txHash r) w) = inr final /\
        status final = SUCCESS).
Proof.
  split.
  - intros W AssembledTx loadClient set_asset_price signAndSend params s s' r.
    rewrite PublisherFacts.publishToOracle_unfold.
    destruct (loadClient (fst s)) as [[e|u] w]; [discriminate |].
    intros Hret.
    destruct (PublisherFacts.retry_value _ _ _ _ _ Hret) as (s0 & Hcall).
    eapply PublisherFacts.attempt_value. exact Hcall.
  - intros W AssembledTx set_asset_price sign send getTransaction
           fuel params s s' r.
    unfold LegacyPublisher.publishToOracle.
    destruct (LegacyPublisher.submit _ _ _ _ _ _ params s)
      as [[e|[txHash result]] s1] eqn:Hsubmit; [discriminate |].
    destruct (LegacyPublisher.poll _ _ fuel txHash result s1)
      as [[[e|final] s2]|] eqn:Hpoll; try discriminate.
    destruct (isFailed (status final)) eqn:Hfailed; [discriminate |].
    intros Hret. inversion Hret; subst; simpl.
    split; [reflexivity |].
    destruct (LegacyFacts.submit_value _ _ _ _ _ _ _ _ _ _ _ Hsubmit)
      as [Hne Hfirst].
    split; [exact Hne |].
    pose proof (LegacyFacts.poll_value _ _ _ _ _ _ _ _ Hpoll) as Hnf.
    assert (Hstatus : status final = SUCCESS)
      by (destruct (status final); [reflexivity | discriminate Hnf
                                   | discriminate Hfailed]).
    destruct (LegacyFacts.poll_answer _ _ _ _ _ _ _ _ Hpoll) as [-> | (w & Hw)].
    + destruct Hfirst as (w & Hw). eauto.
    + eauto.
Qed.

Lemma publishToOracle_returns_success_only_witness :
  Publisher.success {| Publisher.txHash := "ab12"; Publisher.success := true |}
  = true /\
  LegacyPublisher.success
    {| LegacyPublisher.txHash := "ab12"; LegacyPublisher.success := true |}
  = true.
Proof.
  destruct publishToOracle_returns_success_only as [Hnew Hold].
  split.
  - apply (Hnew nat unit Scenario.loadOk Scenario.simulateOk
             Scenario.sendAccepted Scenario.paramsTSLA (0%nat, [])
             (2%nat, [EvGetClient; EvSetAssetPrice Scenario.argsTSLA;
                      EvSignAndSend])).
    vm_compute. reflexivity.
  - apply (Hold nat unit Scenario.legacySimulate Scenario.legacySign
             Scenario.legacySend Scenario.countdown 3%nat Scenario.legacyTSLA
             (2%nat, [])
             (0%nat, [EvSetAssetPrice Scenario.argsTSLA; EvSign; EvSend;
                      EvGetTransaction "ab12";
                      EvSleep 1500; EvGetTransaction "ab12";
                      EvSleep 1500; EvGetTransaction "ab12"])).
    vm_compute. reflexivity.
Defined.

End ResultFacts.

(** ** The structural verifier *)

Module VerifierFacts.
Import ZkVerifier.

Section Host.

Variable keccak256 : Bytes -> N.

Local Abbreviation verify_price_proof := (verify_price_proof keccak256).
Local Abbreviation submit := (submit keccak256).
Local Abbreviation run := (run keccak256).
Local Abbreviation acceptances := (acceptances keccak256).

(** What an acceptance says about the call and the two states. *)
Lemma verify_accept (env : Env) (proof_data : Bytes) (public_inputs : list Z)
    (expected_price expected_timestamp : Z) (b : bool) (env' : Env) :
  verify_price_proof env proof_data public_inputs expected_price
                     expected_timestamp = (inr b, env') ->
  b = true /\
  validate_proof_structure proof_data = inr tt /\
  head public_inputs = Some (as_u32 (Z.quot expected_price 100000)) /\
  used_proofs env !! keccak256 proof_data = None /\
  env' = store_used_proof env (keccak256 proof_data) expected_timestamp.
Proof.
  unfold ZkVerifier.verify_price_proof, is_proof_used.
  destruct (validate_proof_structure proof_data) as [e|[]]; [discriminate |].
  destruct (head public_inputs) as [avg|]; [|discriminate].
  destruct (avg =? as_u32 (Z.quot expected_price 100000)) eqn:Havg; simpl;
    [|discriminate].
  destruct (used_proofs env !! keccak256 proof_data) eqn:Hused;
    [discriminate |].
  intros H. inversion H; subst.
  apply Z.eqb_eq in Havg. subst avg. auto.
Qed.

(** A rejection leaves the ledger as it was. *)
Lemma verify_reject (env : Env) (proof_data : Bytes) (public_inputs : list Z)
    (expected_price expected_timestamp : Z) (e : Error) (env' : Env) :
  verify_price_proof env proof_data public_inputs expected_price
                     expected_timestamp = (inl e, env') ->
  env' = env.
Proof.
  unfold ZkVerifier.verify_price_proof.
  destruct (validate_proof_structure proof_data) as [e0|[]];
    [intros H; now inversion H |].
  destruct (head public_inputs) as [avg|]; [|intros H; now inversion H].
  destruct (negb _); [intros H; now inversion H |].
  destruct (is_proof_used _ _); [intros H; now inversion H | discriminate].
Qed.

(** A proof whose hash is recorded is never accepted again. *)
Lemma verify_used (env : Env) (proof_data : Bytes) (public_inputs : list Z)
    (expected_price expected_timestamp : Z) (t : Z) :
  used_proofs env !! keccak256 proof_data = Some t ->
  exists e,
    verify_price_proof env proof_data public_inputs expected_price
                       expected_timestamp = (inl e, env) /\
    (validate_proof_structure proof_data = inr tt ->
     head public_inputs = Some (as_u32 (Z.quot expected_price 100000)) ->
     e = ProofAlreadyUsed).
Proof.
  intros Hused.
  unfold ZkVerifier.verify_price_proof, is_proof_used. rewrite Hused.
  destruct (validate_proof_structure proof_data) as [e0|[]].
  { exists e0. split; [reflexivity | discriminate]. }
  destruct (head public_inputs) as [avg|].
  2:{ exists NoPublicInput. split; [reflexivity | discriminate]. }
  destruct (avg =? as_u32 (Z.quot expected_price 100000)) eqn:Havg; simpl.
  - exists ProofAlreadyUsed. split; reflexivity.
  - exists PriceMismatch. split; [reflexivity |].
    intros _ Hhead. inversion Hhead; subst.
    rewrite Z.eqb_refl in Havg. discriminate.
Qed.

(** A record, once written, is neither overwritten nor removed. *)
Lemma submit_keeps (env : Env) (c : Submission) (d : N) (t : Z) :
  used_proofs env !! d = Some t ->
  used_proofs (snd (submit env c)) !! d = Some t.
Proof.
  intros Hd. unfold ZkVerifier.submit.
  destruct (verify_price_proof env (sub_proof c) (sub_inputs c) (sub_price c)
              (sub_timestamp c)) as [[e|b] env'] eqn:Hv; simpl.
  - now rewrite (verify_reject _ _ _ _ _ _ _ Hv).
  - destruct (verify_accept _ _ _ _ _ _ _ Hv) as (_ & _ & _ & Hfree & ->).
    simpl. rewrite lookup_insert_ne; [exact Hd |].
    intros Heq. rewrite Heq, Hd in Hfree. discriminate.
Qed.

Lemma run_keeps (cs : list Submission) (env : Env) (d : N) (t : Z) :
  used_proofs env !! d = Some t ->
  used_proofs (snd (run env cs)) !! d = Some t.
Proof.
  revert env. induction cs as [|c cs IH]; intros env Hd; simpl; [exact Hd |].
  pose proof (submit_keeps env c d t Hd) as Hstep.
  destruct (submit env c) as [r env1]. simpl in Hstep.
  specialize (IH env1 Hstep).
  destruct (ZkVerifier.run keccak256 env1 cs) as [rs env2]. exact IH.
Qed.

(** Once the hash [d] is recorded, no proof with that hash is accepted. *)
Lemma acceptances_used (cs : list Submission) (env : Env) (d : N) (t : Z) :
  used_proofs env !! d = Some t ->
  acceptances d (fst (run env cs)) = 0%nat.
Proof.
  revert env. induction cs as [|c cs IH]; intros env Hd; simpl; [reflexivity |].
  pose proof (submit_keeps env c d t Hd) as Hstep.
  unfold ZkVerifier.submit in *.
  destruct (verify_price_proof env (sub_proof c) (sub_inputs c) (sub_price c)
              (sub_timestamp c)) as [[e|b] env1] eqn:Hv; simpl in Hstep.
  - specialize (IH env1 Hstep).
    destruct (ZkVerifier.run keccak256 env1 cs) as [rs env2]. exact IH.
  - specialize (IH env1 Hstep).
    destruct (verify_accept _ _ _ _ _ _ _ Hv) as (_ & _ & _ & Hfree & _).
    destruct (ZkVerifier.run keccak256 env1 cs) as [rs env2].
    unfold ZkVerifier.acceptances in *. simpl in *.
    destruct (N.eqb_spec (keccak256 (sub_proof c)) d) as [Heq | Hne];
      [|exact IH].
    rewrite Heq, Hd in Hfree. discriminate.
Qed.

Lemma acceptances_at_most_one (cs : list Submission) (env : Env) (d : N) :
  (acceptances d (fst (run env cs)) <= 1)%nat.
Proof.
  revert env. induction cs as [|c cs IH]; intros env; simpl;
    [unfold ZkVerifier.acceptances; simpl; lia |].
  unfold ZkVerifier.submit.
  destruct (verify_price_proof env (sub_proof c) (sub_inputs c) (sub_price c)
              (sub_timestamp c)) as [[e|b] env1] eqn:Hv.
  - specialize (IH env1).
    destruct (ZkVerifier.run keccak256 env1 cs) as [rs env2]. exact IH.
  - destruct (verify_accept _ _ _ _ _ _ _ Hv) as (_ & _ & _ & _ & Henv1).
    pose proof (acceptances_used cs env1 d (sub_timestamp c)) as Hzero.
    specialize (IH env1).
    destruct (ZkVerifier.run keccak256 env1 cs) as [rs env2].
    unfold ZkVerifier.acceptances in *. simpl in *.
    destruct (N.eqb_spec (keccak256 (sub_proof c)) d) as [Heq | Hne];
      [|exact IH].
    simpl. rewrite Hzero; [lia |].
    subst env1 d. simpl. apply lookup_insert_eq.
Qed.


(** The price check, on the 32-bit truncation that the code compares. *)
Lemma verify_price_mismatch (env : Env) (proof_data : Bytes)
    (public_inputs : list Z) (expected_price expected_timestamp avg_price : Z) :
  validate_proof_structure proof_data = inr tt ->
  head public_inputs = Some avg_price ->
  avg_price <> as_u32 (Z.quot expected_price 100000) ->
  verify_price_proof env proof_data public_inputs expected_price
                     expected_timestamp = (inl PriceMismatch, env).
Proof.
  intros Hvalid Hhead Hne.
  unfold ZkVerifier.verify_price_proof. rewrite Hvalid, Hhead.
  apply Z.eqb_neq in Hne. now rewrite Hne.
Qed.

(** C6, amended. For every submitted attestation whose proof payload passes
    the structural check and whose first public input differs from the
    claimed price divided by 100000, the quotient being a 32-bit unsigned
    value, the verifier returns [PriceMismatch] and leaves the ledger as it
    is, whatever the ledger holds and whatever the proof is otherwise. *)
Theorem price_mismatch_rejected (env : Env) (proof_data : Bytes)
    (public_inputs : list Z) (expected_price expected_timestamp avg_price : Z) :
  validate_proof_structure proof_data = inr tt ->
  head public_inputs = Some avg_price ->
  0 <= Z.quot expected_price 100000 < 2 ^ 32 ->
  avg_price <> Z.quot expected_price 100000 ->
  verify_price_proof env proof_data public_inputs expected_price
                     expected_timestamp = (inl PriceMismatch, env).
Proof.
  intros Hvalid Hhead Hrange Hne.
  apply (verify_price_mismatch _ _ _ _ _ avg_price Hvalid Hhead).
  unfold as_u32. now rewrite Z.mod_small.
Qed.

End Host.

Example validate_proof256 :
  validate_proof_structure Scenario.proof256 = inr tt.
Proof. vm_compute. reflexivity. Qed.



(** C6, as stated, fails: with an empty proof payload a mismatching price is
    answered with [EmptyProof], and with an all-zero payload with
    [ZeroProof]; the structural check comes first. *)
Lemma price_mismatch_after_structure_counterexample :
  head [30050] = Some 30050 /\
  30050 <> Z.quot 9999900000 100000 /\
  verify_price_proof Scenario.toyKeccak empty_env [] [30050] 9999900000
    1700000000 = (inl EmptyProof, empty_env) /\
  verify_price_proof Scenario.toyKeccak empty_env (repeat x00 256) [30050]
    9999900000 1700000000 = (inl ZeroProof, empty_env).
Proof.
  split; [reflexivity |].
  split; [intros H; vm_compute in H; discriminate H |].
  split; [reflexivity |].
  unfold verify_price_proof.
  replace (validate_proof_structure (repeat x00 256)) with
    (@inl Error unit ZeroProof) by (vm_compute; reflexivity).
  reflexivity.
Qed.

Lemma price_mismatch_rejected_witness :
  verify_price_proof Scenario.toyKeccak empty_env Scenario.proof256 [30050]
    9999900000 1700000000 = (inl PriceMismatch, empty_env).
Proof.
  apply (price_mismatch_rejected Scenario.toyKeccak empty_env Scenario.proof256
           [30050] 9999900000 1700000000 30050).
  - vm_compute. reflexivity.
  - reflexivity.
  - vm_compute. split; [discriminate | reflexivity].
  - intros H. vm_compute in H. discriminate H.
Defined.

End VerifierFacts.

(** ** The consensus circuit and the proof builder *)

Module ConsensusFacts.
Import Js Consensus.

Lemma maxPrice_pair (p1 p2 : Z) : maxPrice [p1; p2] = Z.max p1 p2.
Proof. reflexivity. Qed.

Lemma minPrice_pair (p1 p2 : Z) : minPrice [p1; p2] = Z.min p1 p2.
Proof. reflexivity. Qed.

(** *** The field arithmetic of the circuit *)

Lemma Fp_pos : 0 < Fp.
Proof. reflexivity. Qed.

(** The inverses of the three constants the circuit divides by. *)
Lemma finv_2 : (2 * finv 2) mod Fp = 1.
Proof. vm_compute. reflexivity. Qed.

Lemma finv_100 : (100 * finv 100) mod Fp = 1.
Proof. vm_compute. reflexivity. Qed.

Lemma finv_100000 : (100000 * finv 100000) mod Fp = 1.
Proof. vm_compute. reflexivity. Qed.

Lemma fdiv_range (x c : Z) : 0 <= fdiv x c < Fp.
Proof. unfold fdiv, fmul. apply Z.mod_pos_bound, Fp_pos. Qed.

(** The quotient in the field is the element that, multiplied by the
    divisor, gives the dividend. *)
Lemma fdiv_mul (x c : Z) :
  (c * finv c) mod Fp = 1 -> (c * fdiv x c) mod Fp = x mod Fp.
Proof.
  intros Hinv. unfold fdiv, fmul.
  rewrite Z.mul_mod_idemp_r by (pose proof Fp_pos; lia).
  replace (c * (x * finv c)) with (x * (c * finv c)) by lia.
  rewrite <- Z.mul_mod_idemp_r by (pose proof Fp_pos; lia).
  rewrite Hinv. now rewrite Z.mul_1_r.
Qed.

(** Where the divisor divides the dividend in the integers, the quotient in
    the field is the quotient of the integers. *)
Lemma fdiv_exact (c q : Z) :
  (c * finv c) mod Fp = 1 -> 0 <= q < Fp -> fdiv (c * q) c = q.
Proof.
  intros Hinv Hq. unfold fdiv, fmul.
  replace (c * q * finv c) with (q * (c * finv c)) by lia.
  rewrite <- Z.mul_mod_idemp_r by (pose proof Fp_pos; lia).
  rewrite Hinv, Z.mul_1_r. now apply Z.mod_small.
Qed.

(** Where it does not, the quotient in the field is no small number: its
    product with the divisor passes the modulus. *)
Lemma fdiv_inexact (x c : Z) :
  (c * finv c) mod Fp = 1 -> 0 < c -> 0 <= x < Fp -> x mod c <> 0 ->
  Fp <= c * fdiv x c.
Proof.
  intros Hinv Hc Hx Hndiv.
  pose proof (fdiv_range x c) as Hy.
  pose proof (fdiv_mul x c Hinv) as Hmul.
  rewrite (Z.mod_small x) in Hmul by lia.
  destruct (Z_lt_le_dec (c * fdiv x c) Fp) as [Hlt | Hge]; [|exact Hge].
  exfalso. apply Hndiv.
  rewrite Z.mod_small in Hmul by nia.
  rewrite <- Hmul, Z.mul_comm. apply Z.mod_mul. lia.
Qed.

(** The threshold of the circuit on prices below 2^128. *)
Lemma threshold_field (m : Z) :
  0 <= m < 2 ^ 128 ->
  ((7 * m) mod 100 = 0 -> fdiv (fmul m 7) 100 = m * 7 / 100) /\
  ((7 * m) mod 100 <> 0 -> 2 ^ 128 <= fdiv (fmul m 7) 100).
Proof.
  intros Hm.
  assert (Hmul : fmul m 7 = 7 * m).
  { unfold fmul. rewrite Z.mul_comm. apply Z.mod_small.
    change (2 ^ 128) with 340282366920938463463374607431768211456 in Hm.
    unfold Fp. lia. }
  rewrite Hmul. split.
  - intros Hdiv.
    replace (m * 7) with (7 * m) by lia.
    pose proof (proj2 (Z.div_exact (7 * m) 100 ltac:(lia)) Hdiv) as Heq.
    assert (Hq : 0 <= 7 * m / 100 < Fp).
    { change (2 ^ 128) with 340282366920938463463374607431768211456 in Hm.
      unfold Fp. split; [apply Z.div_pos; lia |].
      apply Z.div_lt_upper_bound; lia. }
    set (q := 7 * m / 100) in *.
    rewrite Heq. now apply fdiv_exact; [exact finv_100 |].
  - intros Hndiv.
    pose proof (fdiv_inexact (7 * m) 100 finv_100 ltac:(lia)) as Hbig.
    change (2 ^ 128) with 340282366920938463463374607431768211456 in *.
    unfold Fp in Hbig. specialize (Hbig ltac:(lia) Hndiv). lia.
Qed.

(** The circuit's [assert] is the tolerance check of the builder at
    700 basis points, on prices below 2^128 whose larger one, times seven,
    is a multiple of 100. *)
Lemma main_tolerance (p1 p2 : Z) (asset_id : str) :
  0 <= p1 < 2 ^ 128 -> 0 <= p2 < 2 ^ 128 ->
  (7 * Z.max p1 p2) mod 100 = 0 ->
  main p1 p2 asset_id = None <-> toleranceExceeded [p1; p2] 700 = true.
Proof.
  intros H1 H2 Hdiv.
  unfold main, toleranceExceeded.
  rewrite maxPrice_pair, minPrice_pair.
  replace (Z.max p1 p2 * 700 / 10000) with (Z.max p1 p2 * 7 / 100)
    by (replace (Z.max p1 p2 * 700) with (Z.max p1 p2 * 7 * 100) by lia;
        change 10000 with (100 * 100);
        now rewrite Z.div_mul_cancel_r).
  change (2 ^ 128) with 340282366920938463463374607431768211456 in *.
  destruct (Z.gtb_spec p1 p2) as [Hgt | Hle].
  - rewrite Z.max_l in * by lia. rewrite Z.min_r by lia.
    destruct (threshold_field p1 ltac:(change (2 ^ 128) with 340282366920938463463374607431768211456; lia))
      as [Hexact _].
    rewrite (Hexact Hdiv).
    unfold fsub. rewrite Z.mod_small by (unfold Fp; lia).
    destruct (Z.leb_spec (p1 - p2) (p1 * 7 / 100));
      destruct (Z.gtb_spec (p1 - p2) (p1 * 7 / 100));
      split; intros; try discriminate; try reflexivity; lia.
  - rewrite Z.max_r in * by lia. rewrite Z.min_l by lia.
    destruct (threshold_field p2 ltac:(change (2 ^ 128) with 340282366920938463463374607431768211456; lia))
      as [Hexact _].
    rewrite (Hexact Hdiv).
    unfold fsub. rewrite Z.mod_small by (unfold Fp; lia).
    destruct (Z.leb_spec (p2 - p1) (p2 * 7 / 100));
      destruct (Z.gtb_spec (p2 - p1) (p2 * 7 / 100));
      split; intros; try discriminate; try reflexivity; lia.
Qed.

Example main_TSLA : main 3000000000 3010000000 (lit "TSLA") = Some 30050.
Proof. vm_compute. reflexivity. Qed.

(** Field division is not integer division: two prices 7.4% apart pass the
    [assert], and an odd sum gives an output that is no price. *)
Example main_100_108 :
  main 100 108 (lit "TSLA") =
  Some 16829432179299781932880816449413413670083066420191880486182675234974407636110.
Proof. vm_compute. reflexivity. Qed.

Example main_odd_sum :
  main 3000000001 3010000000 (lit "TSLA") =
  Some 1975085595540416999679404422423290217615161661671540859003607454775668109652.
Proof. vm_compute. reflexivity. Qed.

Section Oracle.

Variable O : Type.
Variable Prove : list Z -> str -> O -> option (list byte * list Z) * O.
Variable VerifyFull : list byte -> list Z -> bool.
Variable Hash : list byte -> N.

Local Abbreviation build := (build O Prove VerifyFull Hash).

(** C7. For at least two observations, with [maxPrice] the largest and
    [minPrice] the smallest scaled price: if
    [maxPrice - minPrice > maxPrice * toleranceBps / 10000] then [build]
    fails with [ToleranceExceeded], and the proving oracle is not called. *)
Theorem build_tolerance_exceeded (observations : list PriceObservation)
    (toleranceBps : Z) (o : O) :
  (2 <= length observations)%nat ->
  maxPrice (map scaledPrice observations)
  - minPrice (map scaledPrice observations)
  > maxPrice (map scaledPrice observations) * toleranceBps / 10000 ->
  build observations toleranceBps o = (inl ToleranceExceeded, o, []).
Proof.
  intros Hlen Hdiff.
  destruct observations as [|first [|second rest]]; simpl in Hlen; try lia.
  unfold Consensus.build.
  assert (Hex : toleranceExceeded
                  (map scaledPrice (first :: second :: rest)) toleranceBps
                = true).
  { unfold toleranceExceeded. now apply Z.gtb_lt, Z.gt_lt. }
  now rewrite Hex.
Qed.

End Oracle.

Lemma build_tolerance_exceeded_witness :
  Consensus.build nat Scenario.toyProve Scenario.toyVerifyFull
    Scenario.toyKeccak
    [Scenario.observation "alphavantage" 3000000000;
     Scenario.observation "finnhub" 3300000000] 700 0%nat
  = (inl ToleranceExceeded, 0%nat, []).
Proof.
  apply (build_tolerance_exceeded nat Scenario.toyProve Scenario.toyVerifyFull
           Scenario.toyKeccak).
  - simpl. lia.
  - vm_compute. reflexivity.
Defined.

(** Within the tolerance the builder goes on to the oracle. *)
Example build_TSLA :
  fst (fst (Consensus.build nat Scenario.toyProve Scenario.toyVerifyFull
              Scenario.toyKeccak
              [Scenario.observation "alphavantage" 3000000000;
               Scenario.observation "finnhub" 3010000000] 700 0%nat))
  = inr {| assetId := lit "TSLA";
           averagedPrice := 30050;
           timestamp := 1700000000;
           proofBytes := Scenario.proof256;
           publicInputs := [30050];
           proofDigest := Scenario.toyKeccak Scenario.proof256 |}.
Proof. vm_compute. reflexivity. Qed.

End ConsensusFacts.

(** * Further properties of the code *)

(** ** commit.ts *)

Module CommitMore.
Import Js Commit Hash31.

Lemma ToInt32_shift (x q : Z) : ToInt32 (x + 2 ^ 32 * q) = ToInt32 x.
Proof.
  unfold ToInt32.
  replace (x + 2 ^ 32 * q + 2 ^ 31) with (x + 2 ^ 31 + q * 2 ^ 32) by lia.
  now rewrite Z_mod_plus_full.
Qed.

Lemma ToInt32_repr (x : Z) : exists q, ToInt32 x = x + 2 ^ 32 * q.
Proof.
  exists (- ((x + 2 ^ 31) / 2 ^ 32)). unfold ToInt32.
  rewrite Z.mod_eq by lia. lia.
Qed.

Lemma ToInt32_small (x : Z) : - 2 ^ 31 <= x < 2 ^ 31 -> ToInt32 x = x.
Proof. intros Hx. unfold ToInt32. rewrite Z.mod_small; lia. Qed.

(** One iteration multiplies by 31 and adds the code unit, modulo 2^32:
    [(hash << 5) - hash] is [31 * hash]. *)
Lemma step_31 (hash char : Z) : step hash char = ToInt32 (31 * hash + char).
Proof.
  unfold step. cbv zeta. rewrite CommitFacts.band_diag.
  unfold shl. rewrite Z.shiftl_mul_pow2 by lia.
  destruct (ToInt32_repr hash) as (q1 & ->).
  destruct (ToInt32_repr ((hash + 2 ^ 32 * q1) * 2 ^ 5)) as (q2 & ->).
  replace ((hash + 2 ^ 32 * q1) * 2 ^ 5 + 2 ^ 32 * q2 - hash + char)
    with (31 * hash + char + 2 ^ 32 * (q1 * 2 ^ 5 + q2)) by lia.
  apply ToInt32_shift.
Qed.

Lemma fold_step_poly31 (assetId : str) (h : Z) :
  fold_left step assetId (ToInt32 h) = ToInt32 (poly31 assetId h).
Proof.
  revert h. induction assetId as [|char rest IH]; intros h; simpl.
  - reflexivity.
  - rewrite step_31.
    destruct (ToInt32_repr h) as (q & ->).
    replace (31 * (h + 2 ^ 32 * q) + char)
      with (31 * h + char + 2 ^ 32 * (31 * q)) by lia.
    rewrite ToInt32_shift. apply IH.
Qed.

(** X1. [assetIdToInt] is the absolute value of the polynomial hash in 31
    of the code units, taken modulo 2^32 in the signed range. *)
Theorem assetIdToInt_poly31 (assetId : str) :
  assetIdToInt assetId = Z.abs (ToInt32 (poly31 assetId 0)).
Proof.
  unfold assetIdToInt. cbv zeta.
  change 0 with (ToInt32 0) at 1.
  now rewrite fold_step_poly31.
Qed.

Lemma poly31_bound (assetId : str) (h : Z) :
  0 <= h ->
  Forall (fun char => 0 <= char < 128) assetId ->
  0 <= poly31 assetId h /\
  poly31 assetId h + 5 <= 31 ^ Z.of_nat (length assetId) * (h + 5).
Proof.
  intros Hh Hall. revert h Hh.
  induction Hall as [|char rest Hchar _ IH]; intros h Hh.
  - cbn [poly31 fold_left length]. change (31 ^ Z.of_nat 0) with 1. lia.
  - cbn [poly31 fold_left]. fold (poly31 rest (31 * h + char)).
    destruct (IH (31 * h + char) ltac:(lia)) as [Hlo Hhi].
    split; [exact Hlo |].
    replace (Z.of_nat (length (char :: rest)))
      with (Z.succ (Z.of_nat (length rest))) by (cbn [length]; lia).
    rewrite Z.pow_succ_r by lia.
    assert (Hpow : 0 < 31 ^ Z.of_nat (length rest))
      by (apply Z.pow_pos_nonneg; lia).
    nia.
Qed.

(** X2. On an asset identifier of at most five code units, all below 128,
    nothing wraps around and no sign is dropped: [assetIdToInt] is the
    polynomial in 31 of the code units itself. *)
Theorem assetIdToInt_short_ascii (assetId : str) :
  (length assetId <= 5)%nat ->
  Forall (fun char => 0 <= char < 128) assetId ->
  assetIdToInt assetId = poly31 assetId 0.
Proof.
  intros Hlen Hall.
  destruct (poly31_bound assetId 0 ltac:(lia) Hall) as [Hlo Hhi].
  assert (Hpow : 31 ^ Z.of_nat (length assetId) <= 31 ^ 5)
    by (apply Z.pow_le_mono_r; lia).
  assert (H31 : 31 ^ 5 = 28629151) by reflexivity.
  unfold assetIdToInt. cbv zeta.
  change 0 with (ToInt32 0) at 1.
  rewrite fold_step_poly31, ToInt32_small.
  - apply Z.abs_eq. exact Hlo.
  - change (2 ^ 31) with 2147483648. lia.
Qed.

Lemma assetIdToInt_short_ascii_witness :
  assetIdToInt (lit "TSLA") = poly31 (lit "TSLA") 0.
Proof.
  apply assetIdToInt_short_ascii.
  - vm_compute. lia.
  - vm_compute. repeat constructor; discriminate.
Defined.

Section Binder.

Variable World : Type.
Variable Poseidon : Type.
Variable buildPoseidon : World -> Poseidon * World.
Variable digest : Poseidon -> list Z -> N.

Local Abbreviation generateCommit :=
  (generateCommit World Poseidon buildPoseidon digest).

(** X3. The hexadecimal string that [generateCommit] returns reads back as
    the hash, so two commitments are the same string exactly when the two
    hashes are the same number. *)
Theorem generateCommit_hex_faithful
    (price timestamp price' timestamp' : Z) (assetId assetId' : str)
    (w w' : World) :
  (exists c,
      fst (generateCommit (Integral price) (Integral timestamp) assetId w)
      = inr c /\
      HexString.Raw.to_N c 0 =
      digest (fst (buildPoseidon w))
             [price; timestamp; assetIdToInt assetId]) /\
  (fst (generateCommit (Integral price) (Integral timestamp) assetId w) =
   fst (generateCommit (Integral price') (Integral timestamp') assetId' w')
   <->
   digest (fst (buildPoseidon w)) [price; timestamp; assetIdToInt assetId] =
   digest (fst (buildPoseidon w'))
          [price'; timestamp'; assetIdToInt assetId']).
Proof.
  rewrite !CommitFacts.generateCommit_unfold. simpl. split.
  - eexists. split; [reflexivity |]. apply CommitFacts.toString16_reads_back.
  - split.
    + intros H. inversion H. now apply CommitFacts.toString16_inj.
    + intros H. now rewrite H.
Qed.

(** X4. [generateCommit] is rejected exactly when the price or the
    timestamp is not an integer, and then with a [RangeError]; on integers
    it always returns a commitment. *)
Theorem generateCommit_rejects_non_integers
    (price timestamp : number) (assetId : str) (w : World) :
  (forall e,
      fst (generateCommit price timestamp assetId w) = inl e ->
      e = RangeError /\ (price = NonIntegral \/ timestamp = NonIntegral)) /\
  (price = NonIntegral \/ timestamp = NonIntegral ->
   fst (generateCommit price timestamp assetId w) = inl RangeError).
Proof.
  rewrite CommitFacts.generateCommit_unfold. simpl.
  destruct price as [p|], timestamp as [t|]; simpl; split;
    try (intros e He; inversion He; auto);
    try (intros [H | H]; (discriminate H || reflexivity)).
Qed.

End Binder.

Lemma generateCommit_rejects_non_integers_witness :
  fst (generateCommit nat unit Scenario.buildToy Scenario.toyDigest
         NonIntegral (Integral 1700000000) (lit "TSLA") 0%nat)
  = inl RangeError.
Proof.
  apply (generateCommit_rejects_non_integers nat unit Scenario.buildToy
           Scenario.toyDigest).
  left. reflexivity.
Defined.

End CommitMore.

(** ** publisher.ts *)

Module PublisherMore.
Import Js Sdk Publisher.

Section Retry.

Context {W T : Type}.
Variable fn : M W T.

(** X5. Whatever [retry] ends with, a value or an error, is what its last
    call of [fn] ended with, in the state that call left: the wrapper adds
    nothing after the last call and changes no outcome. *)
Theorem retry_returns_last_call (retries : Z) (s : St W)
    (r : Result T) (s' : St W) :
  retry W fn retries s = (r, s') ->
  exists s0, fn s0 = (r, s').
Proof.
  remember (Z.to_nat retries) as k eqn:Hk.
  revert retries Hk s.
  induction k as [|k IH]; intros retries Hk s Hret;
    destruct (fn s) as [[e|v] s1] eqn:Hcall.
  - rewrite (PublisherFacts.retry_stop fn retries s e s1 Hcall) in Hret by lia.
    exists s. now rewrite Hcall.
  - rewrite (PublisherFacts.retry_ok fn retries s v s1 Hcall) in Hret.
    exists s. now rewrite Hcall.
  - destruct (Z_le_gt_dec retries 0) as [Hle | Hgt].
    + rewrite (PublisherFacts.retry_stop fn retries s e s1 Hcall Hle) in Hret.
      exists s. now rewrite Hcall.
    + rewrite (PublisherFacts.retry_again fn retries s e s1 Hcall) in Hret
        by lia.
      eapply (IH (retries - 1)); [lia | exact Hret].
  - rewrite (PublisherFacts.retry_ok fn retries s v s1 Hcall) in Hret.
    exists s. now rewrite Hcall.
Qed.

End Retry.

Lemma retry_returns_last_call_witness :
  exists s0,
    Scenario.alwaysRejected s0 =
    (inl (JsError "ProofAlreadyUsed"),
     (0%nat,
      [EvSetAssetPrice Scenario.argsTSLA; EvWarn 1 3; EvSleep 1000;
       EvSetAssetPrice Scenario.argsTSLA; EvWarn 2 3; EvSleep 1000;
       EvSetAssetPrice Scenario.argsTSLA; EvWarn 3 3; EvSleep 1000;
       EvSetAssetPrice Scenario.argsTSLA])).
Proof.
  apply (retry_returns_last_call Scenario.alwaysRejected maxRetries
           (0%nat, [])).
  vm_compute. reflexivity.
Defined.

Section Client.

Variable W : Type.
Variable AssembledTx : Type.
Variable loadClient : W -> Result unit * W.
Variable set_asset_price : SetAssetPriceArgs -> W -> Result AssembledTx * W.
Variable signAndSend : AssembledTx -> W -> Result SentTransaction * W.

Local Abbreviation attempt :=
  (attempt W AssembledTx set_asset_price signAndSend).
Local Abbreviation publishToOracle :=
  (publishToOracle W AssembledTx loadClient set_asset_price signAndSend).

(** X6. [getClient] is awaited outside the retry wrapper: when the client
    fails to load, the error is surfaced at once, with no invocation, no
    warning and no delay. *)
Theorem client_failure_not_retried (params : PublishParams) (s : St W)
    (e : Error) (w : W) :
  loadClient (fst s) = (inl e, w) ->
  publishToOracle params s = (inl e, (w, snd s ++ [EvGetClient])).
Proof.
  intros Hload. rewrite PublisherFacts.publishToOracle_unfold.
  now rewrite Hload.
Qed.

(** Parameters that the closure cannot convert: a price or a timestamp
    that is not an integer, or a timestamp beyond the range of [Date]. *)
Lemma attempt_unconvertible (params : PublishParams) (s : St W) :
  price params = NonIntegral \/
  timestamp params = NonIntegral \/
  (exists t, timestamp params = Integral t /\
             8640000000000000 < Z.abs (t * 1000)) ->
  attempt params s = (inl RangeError, s).
Proof.
  unfold Publisher.attempt, bind, lift, call, throw, ret, toISOString, BigInt.
  intros [Hp | [Ht | (t & Ht & Hrange)]].
  - rewrite Hp. destruct (timestamp params) as [t|]; [|reflexivity].
    destruct (Z.abs (t * 1000) <=? 8640000000000000); reflexivity.
  - rewrite Ht. reflexivity.
  - rewrite Ht. apply Z.leb_gt in Hrange. rewrite Hrange. reflexivity.
Qed.

(** X7. Parameters that do not convert are retried like any failure: with
    the client loaded, the publication ends in a [RangeError] without a
    single invocation of the contract, after three warnings and three
    delays of [retryDelay]. *)
Theorem unconvertible_params_retried (params : PublishParams) (s : St W)
    (w : W) :
  price params = NonIntegral \/
  timestamp params = NonIntegral \/
  (exists t, timestamp params = Integral t /\
             8640000000000000 < Z.abs (t * 1000)) ->
  loadClient (fst s) = (inr tt, w) ->
  publishToOracle params s =
  (inl RangeError,
   (w, snd s ++ [EvGetClient;
                 EvWarn 1 3; EvSleep 1000;
                 EvWarn 2 3; EvSleep 1000;
                 EvWarn 3 3; EvSleep 1000])).
Proof.
  intros Hbad Hload. rewrite PublisherFacts.publishToOracle_unfold, Hload.
  pose proof (fun s0 => attempt_unconvertible params s0 Hbad) as Hfail.
  unfold maxRetries.
  rewrite (PublisherFacts.retry_again _ 3 _ RangeError _ (Hfail _)) by lia.
  rewrite (PublisherFacts.retry_again _ (3 - 1) _ RangeError _ (Hfail _))
    by lia.
  rewrite (PublisherFacts.retry_again _ (3 - 1 - 1) _ RangeError _ (Hfail _))
    by lia.
  rewrite (PublisherFacts.retry_stop _ (3 - 1 - 1 - 1) _ RangeError _ (Hfail _))
    by lia.
  simpl. rewrite <- !app_assoc. reflexivity.
Qed.

(** One call of the closure on a transaction that is confirmed. *)
Lemma attempt_confirmed (params : PublishParams) (s : St W) (p t : Z)
    (tx : AssembledTx) (w1 w2 : W) (sent : SentTransaction) (h : string) :
  price params = Integral p ->
  timestamp params = Integral t ->
  Z.abs (t * 1000) <= 8640000000000000 ->
  let args := {| asset_id := Other [assetId params];
                 arg_price := p;
                 arg_timestamp := t |} in
  set_asset_price args (fst s) = (inr tx, w1) ->
  signAndSend tx w1 = (inr sent, w2) ->
  confirmed sent h ->
  attempt params s =
  (inr {| txHash := h; success := true |},
   (w2, snd s ++ [EvSetAssetPrice args; EvSignAndSend])).
Proof.
  intros Hp Ht Hd args Hsim Hsend (fr & Hfinal & Hstatus & Hhash).
  apply Z.leb_le in Hd. subst args.
  unfold Publisher.attempt, bind, lift, call, throw, ret, toISOString, BigInt,
    toAsset.
  rewrite Ht, Hd, Hp. simpl. rewrite Hsim. simpl.
  rewrite Hsend. simpl. rewrite Hfinal, Hstatus. simpl. rewrite Hhash.
  now rewrite <- app_assoc.
Qed.

(** X8. When the client loads, the parameters convert, the simulation
    succeeds and the transaction is confirmed at the first attempt, the
    publication is one invocation and one submission, with no warning and
    no delay, and it returns the confirmed hash. *)
Theorem first_attempt_success (params : PublishParams) (s : St W) (p t : Z)
    (tx : AssembledTx) (w0 w1 w2 : W) (sent : SentTransaction) (h : string) :
  price params = Integral p ->
  timestamp params = Integral t ->
  Z.abs (t * 1000) <= 8640000000000000 ->
  loadClient (fst s) = (inr tt, w0) ->
  set_asset_price {| asset_id := Other [assetId params];
                     arg_price := p;
                     arg_timestamp := t |} w0 = (inr tx, w1) ->
  signAndSend tx w1 = (inr sent, w2) ->
  confirmed sent h ->
  publishToOracle params s =
  (inr {| txHash := h; success := true |},
   (w2, snd s ++ [EvGetClient;
                  EvSetAssetPrice {| asset_id := Other [assetId params];
                                     arg_price := p;
                                     arg_timestamp := t |};
                  EvSignAndSend])).
Proof.
  intros Hp Ht Hd Hload Hsim Hsend Hconf.
  rewrite PublisherFacts.publishToOracle_unfold, Hload.
  rewrite (PublisherFacts.retry_ok _ maxRetries _ _ _
             (attempt_confirmed params (w0, snd s ++ [EvGetClient]) p t
                tx w1 w2 sent h Hp Ht Hd Hsim Hsend Hconf)).
  simpl. now rewrite <- app_assoc.
Qed.

(** X9. A final response whose [txHash] is the empty string is not
    replaced by the hash of the send response: [??] keeps it, [!txHash]
    then holds, and the attempt throws although the transaction has the
    status [SUCCESS] and the send response carries a hash. *)
Theorem empty_final_hash_throws (params : PublishParams) (s : St W) (p t : Z)
    (tx : AssembledTx) (w1 w2 : W) (sent : SentTransaction)
    (fr : GetTransactionResponse) :
  price params = Integral p ->
  timestamp params = Integral t ->
  Z.abs (t * 1000) <= 8640000000000000 ->
  set_asset_price {| asset_id := Other [assetId params];
                     arg_price := p;
                     arg_timestamp := t |} (fst s) = (inr tx, w1) ->
  signAndSend tx w1 = (inr sent, w2) ->
  getTransactionResponse sent = Some fr ->
  status fr = SUCCESS ->
  resp_txHash fr = Some EmptyString ->
  fst (attempt params s) =
  inl (JsError "Unable to determine transaction hash after submission").
Proof.
  intros Hp Ht Hd Hsim Hsend Hfinal Hstatus Hempty.
  apply Z.leb_le in Hd.
  unfold Publisher.attempt, bind, lift, call, throw, ret, toISOString, BigInt,
    toAsset.
  rewrite Ht, Hd, Hp. simpl. rewrite Hsim. simpl.
  rewrite Hsend. simpl. rewrite Hfinal, Hstatus. simpl.
  unfold hashOf. rewrite Hempty. reflexivity.
Qed.

(** A call of the closure that returns has invoked and submitted. *)
Lemma attempt_value_log (params : PublishParams) (s0 s' : St W)
    (r : PublishResult) :
  attempt params s0 = (inr r, s') ->
  exists args : SetAssetPriceArgs,
    snd s' = snd s0 ++ [EvSetAssetPrice args; EvSignAndSend].
Proof.
  unfold Publisher.attempt, bind, lift, call, throw, ret.
  destruct (toISOString (timestamp params)); simpl; [discriminate |].
  destruct (BigInt (price params)); simpl; [discriminate |].
  destruct (BigInt (timestamp params)); simpl; [discriminate |].
  destruct (set_asset_price _ (fst s0)) as [[e1|tx] w1]; simpl;
    [discriminate |].
  destruct (signAndSend tx w1) as [[e2|sent] w2]; simpl; [discriminate |].
  destruct (getTransactionResponse sent); simpl; [|discriminate].
  destruct (negb _); simpl; [discriminate |].
  destruct (truthy _); simpl; [|discriminate].
  intros H. inversion H; subst. simpl.
  eexists. now rewrite <- app_assoc.
Qed.

(** X10. Nothing follows a success: when [publishToOracle] returns, the
    last two things it did are the invocation and the submission of the
    transaction whose hash it returns. *)
Theorem success_ends_publication (params : PublishParams) (s s' : St W)
    (r : PublishResult) :
  publishToOracle params s = (inr r, s') ->
  exists (pre : list Event) (args : SetAssetPriceArgs),
    snd s' = pre ++ [EvSetAssetPrice args; EvSignAndSend].
Proof.
  rewrite PublisherFacts.publishToOracle_unfold.
  destruct (loadClient (fst s)) as [[e|u] w]; [discriminate |].
  intros Hret.
  destruct (PublisherFacts.retry_value _ _ _ _ _ Hret) as (s0 & Hcall).
  destruct (attempt_value_log params s0 s' r Hcall) as (args & Hlog).
  now exists (snd s0), args.
Qed.

End Client.

Lemma client_failure_not_retried_witness :
  Publisher.publishToOracle nat unit Scenario.loadFails Scenario.simulateOk
    Scenario.sendAccepted Scenario.paramsTSLA (0%nat, []) =
  (inl (JsError "Cannot find module 'oracle'"), (0%nat, [] ++ [EvGetClient])).
Proof.
  apply (client_failure_not_retried nat unit Scenario.loadFails
           Scenario.simulateOk Scenario.sendAccepted Scenario.paramsTSLA
           (0%nat, [])).
  reflexivity.
Defined.

Lemma unconvertible_params_retried_witness :
  Publisher.publishToOracle nat unit Scenario.loadOk Scenario.simulateOk
    Scenario.sendAccepted Scenario.paramsFraction (0%nat, []) =
  (inl RangeError,
   (0%nat, [] ++ [EvGetClient;
                  EvWarn 1 3; EvSleep 1000;
                  EvWarn 2 3; EvSleep 1000;
                  EvWarn 3 3; EvSleep 1000])).
Proof.
  apply (unconvertible_params_retried nat unit Scenario.loadOk
           Scenario.simulateOk Scenario.sendAccepted Scenario.paramsFraction
           (0%nat, [])).
  - left. reflexivity.
  - reflexivity.
Defined.

Lemma first_attempt_success_witness :
  Publisher.publishToOracle nat unit Scenario.loadOk Scenario.simulateOk
    Scenario.sendAccepted Scenario.paramsTSLA (0%nat, []) =
  (inr {| txHash := "ab12"; success := true |},
   (2%nat, [] ++ [EvGetClient; EvSetAssetPrice Scenario.argsTSLA;
                  EvSignAndSend])).
Proof.
  apply (first_attempt_success nat unit Scenario.loadOk Scenario.simulateOk
           Scenario.sendAccepted Scenario.paramsTSLA (0%nat, [])
           3005000000 1700000000 tt 0%nat 1%nat 2%nat
           (Scenario.finalResponse SUCCESS) "ab12").
  - reflexivity.
  - reflexivity.
  - simpl. lia.
  - reflexivity.
  - reflexivity.
  - reflexivity.
  - eexists. split; [reflexivity |]. split; reflexivity.
Defined.

Lemma empty_final_hash_throws_witness :
  fst (Publisher.attempt nat unit Scenario.simulateOk Scenario.sendEmptyHash
         Scenario.paramsTSLA (0%nat, [])) =
  inl (JsError "Unable to determine transaction hash after submission").
Proof.
  apply (empty_final_hash_throws nat unit Scenario.simulateOk
           Scenario.sendEmptyHash Scenario.paramsTSLA (0%nat, [])
           3005000000 1700000000 tt 1%nat 2%nat Scenario.emptyHashResponse
           {| status := SUCCESS; resp_txHash := Some ""%string |}).
  - reflexivity.
  - reflexivity.
  - simpl. lia.
  - reflexivity.
  - reflexivity.
  - reflexivity.
  - reflexivity.
  - reflexivity.
Defined.

Lemma success_ends_publication_witness :
  exists (pre : list Event) (args : SetAssetPriceArgs),
    [EvGetClient; EvSetAssetPrice Scenario.argsTSLA; EvSignAndSend] =
    pre ++ [EvSetAssetPrice args; EvSignAndSend].
Proof.
  apply (success_ends_publication nat unit Scenario.loadOk Scenario.simulateOk
           Scenario.sendAccepted Scenario.paramsTSLA (0%nat, [])
           (2%nat, [EvGetClient; EvSetAssetPrice Scenario.argsTSLA;
                    EvSignAndSend])
           {| txHash := "ab12"; success := true |}).
  vm_compute. reflexivity.
Defined.

End PublisherMore.

(** ** publisher.ts: the cached import *)

Module LoaderFacts.
Import Loader.

Section Binding.

Variable W : Type.
Variable Promise : Type.
Variable importOracle : W -> Promise * W.

Local Abbreviation loads := (loads W Promise importOracle).

Lemma loads_cached (n : nat) (p : Promise) (w : W) :
  loads n (Some p) w = (repeat p n, (Some p, w)).
Proof.
  induction n as [|n IH]; [reflexivity |].
  cbn. fold (Loader.loads W Promise importOracle n (Some p) w).
  now rewrite IH.
Qed.

(** X11. [loadOracleModule] imports the binding once: the first call starts
    the import and every later call returns the very promise of the first,
    settled or not, and leaves the outside alone; a failed import is
    therefore never tried again. *)
Theorem loadOracleModule_imports_once (n : nat) (w : W) :
  loads (S n) None w =
  (repeat (fst (importOracle w)) (S n),
   (Some (fst (importOracle w)), snd (importOracle w))).
Proof.
  cbn. destruct (importOracle w) as [p w1]. cbn.
  fold (Loader.loads W Promise importOracle n (Some p) w1).
  now rewrite loads_cached.
Qed.

End Binding.

End LoaderFacts.

(** ** The earlier publisher *)

Module LegacyMore.
Import Js Sdk Trace LegacyPublisher LegacyTrace.

Lemma count_rounds (n : nat) (txHash : string) :
  count isInvoke (rounds n txHash) = 0%nat /\
  count isSign (rounds n txHash) = 0%nat /\
  count isSend (rounds n txHash) = 0%nat /\
  count isSleep (rounds n txHash) = n /\
  count isQuery (rounds n txHash) = n.
Proof.
  induction n as [|n (Hi & Hg & Hd & Hs & Hq)]; [now cbn |].
  unfold count in *. cbn. now rewrite Hi, Hg, Hd, Hs, Hq.
Qed.

Section Client.

Variable W : Type.
Variable AssembledTx : Type.
Variable set_asset_price :
  SetAssetPriceArgs -> MethodOptions -> W -> Result AssembledTx * W.
Variable sign : AssembledTx -> W -> Result AssembledTx * W.
Variable send : AssembledTx -> W -> Result SentTransaction * W.
Variable getTransaction : string -> W -> Result GetTransactionResponse * W.

Local Abbreviation poll := (poll W getTransaction).
Local Abbreviation submit :=
  (submit W AssembledTx set_asset_price sign send getTransaction).
Local Abbreviation publishToOracle :=
  (publishToOracle W AssembledTx set_asset_price sign send getTransaction).

(** The loop adds whole rounds to the log, at most as many as its fuel. *)
Lemma poll_log (fuel : nat) (txHash : string)
    (result : GetTransactionResponse) (s : St W)
    (out : Result GetTransactionResponse * St W) :
  poll fuel txHash result s = Some out ->
  exists n, (n <= fuel)%nat /\ snd (snd out) = snd s ++ rounds n txHash.
Proof.
  intros Hpoll.
  destruct (LegacyFacts.poll_settles W getTransaction fuel txHash result s out
              Hpoll) as (n & Hn & Hs).
  destruct (LegacyFacts.settles_poll W getTransaction txHash n result s Hs
              fuel Hn) as (out' & Hout & Hlog & _).
  rewrite Hpoll in Hout. inversion Hout; subst out'.
  now exists n.
Qed.

(** What [submit] has done when it ends, whatever the outcome. *)
Lemma submit_log (params : PublishParams) (s : St W)
    (r : Result (string * GetTransactionResponse)) (s1 : St W) :
  submit params s = (r, s1) ->
  exists evs,
    snd s1 = snd s ++ EvSetAssetPrice (argsOf params) :: evs /\
    (evs = [] \/ evs = [EvSign] \/ evs = [EvSign; EvSend] \/
     exists h, evs = [EvSign; EvSend; EvGetTransaction h]) /\
    (forall h result, r = inr (h, result) ->
                      evs = [EvSign; EvSend; EvGetTransaction h]).
Proof.
  unfold LegacyPublisher.submit, bind, call, throw, ret, toAsset, argsOf.
  simpl.
  destruct (set_asset_price _ _ (fst s)) as [[e|tx] w1]; simpl.
  { intros H. inversion H; subst. exists []. simpl.
    split; [reflexivity |]. split; [now left | discriminate]. }
  destruct (sign tx w1) as [[e|tx'] w2]; simpl.
  { intros H. inversion H; subst. exists [EvSign]. simpl.
    split; [now rewrite <- app_assoc |]. split; [auto | discriminate]. }
  destruct (send tx' w2) as [[e|sent] w3]; simpl.
  { intros H. inversion H; subst. exists [EvSign; EvSend]. simpl.
    split; [now rewrite <- !app_assoc |]. split; [auto | discriminate]. }
  destruct (truthy _) as [h|]; simpl.
  2:{ intros H. inversion H; subst. exists [EvSign; EvSend]. simpl.
      split; [now rewrite <- !app_assoc |]. split; [auto | discriminate]. }
  destruct (getTransaction h w3) as [[e|res] w4]; simpl;
    intros H; inversion H; subst;
    exists [EvSign; EvSend; EvGetTransaction h]; simpl;
    (split; [now rewrite <- !app_assoc |]); (split; [eauto 6 |]).
  - discriminate.
  - intros h' result' Heq. now inversion Heq.
Qed.

(** X12. The earlier publisher never resubmits: whatever happens, a call
    that ends has invoked [set_asset_price] exactly once, first of all, and
    signed and sent at most once. *)
Theorem legacy_submits_once (fuel : nat) (params : PublishParams)
    (s : St W) (out : Result PublishResult * St W) :
  publishToOracle fuel params s = Some out ->
  exists evs,
    snd (snd out) = snd s ++ EvSetAssetPrice (argsOf params) :: evs /\
    count isInvoke evs = 0%nat /\
    (count isSign evs <= 1)%nat /\
    (count isSend evs <= 1)%nat.
Proof.
  unfold LegacyPublisher.publishToOracle.
  destruct (submit params s) as [[e|[h result]] s1] eqn:Hsubmit.
  - intros H. inversion H; subst out. simpl.
    destruct (submit_log params s _ _ Hsubmit) as (evs & Hlog & Hshape & _).
    exists evs. split; [exact Hlog |].
    destruct Hshape as [-> | [-> | [-> | (h & ->)]]]; cbn; lia.
  - destruct (submit_log params s _ _ Hsubmit) as (evs & Hlog & _ & Hval).
    specialize (Hval h result eq_refl). subst evs.
    destruct (poll fuel h result s1) as [[r s2]|] eqn:Hpoll; [|discriminate].
    destruct (poll_log fuel h result s1 _ Hpoll) as (n & _ & Hrounds).
    simpl in Hrounds.
    destruct (count_rounds n h) as (Hi & Hg & Hd & _ & _).
    assert (Hs2 : snd s2 =
                  snd s ++ EvSetAssetPrice (argsOf params)
                        :: ([EvSign; EvSend; EvGetTransaction h]
                            ++ rounds n h)).
    { rewrite Hrounds, Hlog. now rewrite <- app_assoc. }
    assert (Hcount :
              count isInvoke ([EvSign; EvSend; EvGetTransaction h]
                              ++ rounds n h) = 0%nat /\
              (count isSign ([EvSign; EvSend; EvGetTransaction h]
                             ++ rounds n h) <= 1)%nat /\
              (count isSend ([EvSign; EvSend; EvGetTransaction h]
                             ++ rounds n h) <= 1)%nat).
    { rewrite !PublisherFacts.count_app, Hi, Hg, Hd. cbn. lia. }
    destruct r as [e|final];
      [|destruct (isFailed (status final))];
      intros H; inversion H; subst out; simpl; eauto.
Qed.

(** X13. A call of the earlier publisher that returns has invoked, signed
    and sent once, queried the ledger at once for the hash it returns, and
    then once more after each delay of [pollInterval]: its log is these
    four events and whole rounds of the loop. *)
Theorem legacy_success_log (fuel : nat) (params : PublishParams)
    (s s' : St W) (r : PublishResult) :
  publishToOracle fuel params s = Some (inr r, s') ->
  exists n,
    (n <= fuel)%nat /\
    snd s' = snd s ++ [EvSetAssetPrice (argsOf params); EvSign; EvSend;
                       EvGetTransaction (txHash r)]
                   ++ rounds n (txHash r) /\
    count isSleep (rounds n (txHash r)) = n.
Proof.
  unfold LegacyPublisher.publishToOracle.
  destruct (submit params s) as [[e|[h result]] s1] eqn:Hsubmit;
    [discriminate |].
  destruct (submit_log params s _ _ Hsubmit) as (evs & Hlog & _ & Hval).
  specialize (Hval h result eq_refl). subst evs.
  destruct (poll fuel h result s1) as [[[e|final] s2]|] eqn:Hpoll;
    try discriminate.
  destruct (poll_log fuel h result s1 _ Hpoll) as (n & Hn & Hrounds).
  simpl in Hrounds.
  destruct (isFailed (status final)); [discriminate |].
  intros H. inversion H; subst. simpl.
  exists n. split; [exact Hn |]. split.
  - rewrite Hrounds, Hlog. now rewrite <- app_assoc.
  - apply count_rounds.
Qed.

(** X14. When the send response carries no hash, or an empty one, the
    earlier publisher throws without a single query of the ledger. *)
Theorem legacy_no_hash_no_query (fuel : nat) (params : PublishParams)
    (s : St W) (tx tx' : AssembledTx) (w1 w2 w3 : W)
    (sendResult : SentTransaction) :
  set_asset_price (argsOf params) {| fee := 300000; simulate := true |}
    (fst s) = (inr tx, w1) ->
  sign tx w1 = (inr tx', w2) ->
  send tx' w2 = (inr sendResult, w3) ->
  truthy (match sendTransactionResponse sendResult with
          | Some r => hash r
          | None => None
          end) = None ->
  publishToOracle fuel params s =
  Some (inl (JsError "Transaction send failed: no hash returned"),
        (w3, snd s ++ [EvSetAssetPrice (argsOf params); EvSign; EvSend])).
Proof.
  intros Hsim Hsign Hsend Hnone.
  unfold LegacyPublisher.publishToOracle, LegacyPublisher.submit,
    bind, call, throw, ret, toAsset.
  unfold argsOf in Hsim. simpl. rewrite Hsim. simpl.
  rewrite Hsign. simpl. rewrite Hsend. simpl. rewrite Hnone. simpl.
  now rewrite <- !app_assoc.
Qed.

End Client.

Lemma legacy_submits_once_witness :
  exists evs,
    [EvSetAssetPrice Scenario.argsTSLA; EvSign; EvSend;
     EvGetTransaction "ab12";
     EvSleep 1500; EvGetTransaction "ab12";
     EvSleep 1500; EvGetTransaction "ab12"] =
    [] ++ EvSetAssetPrice (argsOf Scenario.legacyTSLA) :: evs /\
    count isInvoke evs = 0%nat /\
    (count isSign evs <= 1)%nat /\
    (count isSend evs <= 1)%nat.
Proof.
  apply (legacy_submits_once nat unit Scenario.legacySimulate
           Scenario.legacySign Scenario.legacySend Scenario.countdown
           3%nat Scenario.legacyTSLA (2%nat, [])
           (inr {| txHash := "ab12"; success := true |},
            (0%nat, [EvSetAssetPrice Scenario.argsTSLA; EvSign; EvSend;
                     EvGetTransaction "ab12";
                     EvSleep 1500; EvGetTransaction "ab12";
                     EvSleep 1500; EvGetTransaction "ab12"]))).
  vm_compute. reflexivity.
Defined.

Lemma legacy_success_log_witness :
  exists n,
    (n <= 3)%nat /\
    [EvSetAssetPrice Scenario.argsTSLA; EvSign; EvSend;
     EvGetTransaction "ab12";
     EvSleep 1500; EvGetTransaction "ab12";
     EvSleep 1500; EvGetTransaction "ab12"] =
    [] ++ [EvSetAssetPrice (argsOf Scenario.legacyTSLA); EvSign; EvSend;
           EvGetTransaction "ab12"] ++ rounds n "ab12" /\
    count isSleep (rounds n "ab12") = n.
Proof.
  apply (legacy_success_log nat unit Scenario.legacySimulate
           Scenario.legacySign Scenario.legacySend Scenario.countdown
           3%nat Scenario.legacyTSLA (2%nat, [])
           (0%nat, [EvSetAssetPrice Scenario.argsTSLA; EvSign; EvSend;
                    EvGetTransaction "ab12";
                    EvSleep 1500; EvGetTransaction "ab12";
                    EvSleep 1500; EvGetTransaction "ab12"])
           {| txHash := "ab12"; success := true |}).
  vm_compute. reflexivity.
Defined.

Lemma legacy_no_hash_no_query_witness :
  LegacyPublisher.publishToOracle nat unit Scenario.legacySimulate
    Scenario.legacySign Scenario.legacySendNoHash Scenario.countdown
    0%nat Scenario.legacyTSLA (2%nat, []) =
  Some (inl (JsError "Transaction send failed: no hash returned"),
        (2%nat, [] ++ [EvSetAssetPrice (argsOf Scenario.legacyTSLA);
                       EvSign; EvSend])).
Proof.
  apply (legacy_no_hash_no_query nat unit Scenario.legacySimulate
           Scenario.legacySign Scenario.legacySendNoHash Scenario.countdown
           0%nat Scenario.legacyTSLA (2%nat, []) tt tt 2%nat 2%nat 2%nat
           {| getTransactionResponse := None;
              sendTransactionResponse := None |});
    reflexivity.
Defined.

End LegacyMore.

(** ** The structural verifier *)

Module VerifierMore.
Import ZkVerifier Ledger.

Section Host.

Variable keccak256 : Bytes -> N.

Local Abbreviation verify_price_proof := (verify_price_proof keccak256).
Local Abbreviation submit := (submit keccak256).
Local Abbreviation run := (run keccak256).

(** X15. A call of the verifier touches at most the record of the hash of
    the proof it is given, and a rejected call touches nothing. *)
Theorem verify_frame (env : Env) (proof_data : Bytes) (public_inputs : list Z)
    (expected_price expected_timestamp : Z) :
  (forall d : N,
      d <> keccak256 proof_data ->
      used_proofs (snd (verify_price_proof env proof_data public_inputs
                          expected_price expected_timestamp)) !! d =
      used_proofs env !! d) /\
  (forall e : Error,
      fst (verify_price_proof env proof_data public_inputs expected_price
             expected_timestamp) = inl e ->
      snd (verify_price_proof env proof_data public_inputs expected_price
             expected_timestamp) = env).
Proof.
  destruct (verify_price_proof env proof_data public_inputs expected_price
              expected_timestamp) as [[e|b] env'] eqn:Hv; simpl.
  - pose proof (VerifierFacts.verify_reject _ _ _ _ _ _ _ _ Hv) as ->.
    split; [reflexivity | reflexivity].
  - destruct (VerifierFacts.verify_accept _ _ _ _ _ _ _ _ Hv)
      as (_ & _ & _ & _ & ->).
    split; [|discriminate].
    intros d Hd. simpl. now rewrite lookup_insert_ne.
Qed.

(** X16. After any sequence of submissions the ledger holds the records it
    held before and one record for each accepted proof, no other: the
    recorded hashes are the former ones and those of the accepted proofs,
    and the number of records grew by the number of acceptances. *)
Theorem run_records (cs : list Submission) (env : Env) :
  dom (used_proofs (snd (run env cs))) =
  dom (used_proofs env)
  ∪ list_to_set (accepted_hashes keccak256 (fst (run env cs))) /\
  size (used_proofs (snd (run env cs))) =
  (size (used_proofs env)
   + length (accepted_hashes keccak256 (fst (run env cs))))%nat.
Proof.
  revert env. induction cs as [|c cs IH]; intros env; simpl.
  - split; [|cbn; lia].
    cbn. now rewrite (right_id_L ∅ (∪)).
  - unfold ZkVerifier.submit.
    destruct (verify_price_proof env (sub_proof c) (sub_inputs c)
                (sub_price c) (sub_timestamp c)) as [[e|b] env1] eqn:Hv.
    + pose proof (VerifierFacts.verify_reject _ _ _ _ _ _ _ _ Hv) as ->.
      specialize (IH env).
      destruct (ZkVerifier.run keccak256 env cs) as [rs env2].
      simpl in *. exact IH.
    + destruct (VerifierFacts.verify_accept _ _ _ _ _ _ _ _ Hv)
        as (_ & _ & _ & Hfree & ->).
      specialize (IH (store_used_proof env (keccak256 (sub_proof c))
                        (sub_timestamp c))).
      destruct (ZkVerifier.run keccak256 _ cs) as [rs env2].
      simpl in *. destruct IH as [IHdom IHsize].
      unfold accepted_hashes in *. simpl.
      rewrite dom_insert_L in IHdom.
      rewrite map_size_insert_None in IHsize by exact Hfree.
      split; [|lia].
      rewrite IHdom.
      rewrite (comm_L (∪) {[keccak256 (sub_proof c)]}
                 (dom (used_proofs env))).
      now rewrite <- (assoc_L (∪)).
Qed.

(** X17. The claimed price is checked to two decimals only: all claimed
    prices from [avg * 100000] to [avg * 100000 + 99999] get the same
    answer and leave the same ledger. *)
Theorem price_checked_to_two_decimals (env : Env) (proof_data : Bytes)
    (public_inputs : list Z) (avg expected_price expected_timestamp : Z) :
  0 <= avg ->
  avg * 100000 <= expected_price <= avg * 100000 + 99999 ->
  verify_price_proof env proof_data public_inputs expected_price
                     expected_timestamp =
  verify_price_proof env proof_data public_inputs (avg * 100000)
                     expected_timestamp.
Proof.
  intros Havg Hrange.
  assert (Hq : Z.quot expected_price 100000 = avg).
  { rewrite Z.quot_div_nonneg by lia.
    symmetry. apply Z.div_unique with (r := expected_price - avg * 100000).
    - left. lia.
    - lia. }
  assert (Hq' : Z.quot (avg * 100000) 100000 = avg)
    by (rewrite Z.quot_div_nonneg by lia; apply Z.div_mul; lia).
  unfold ZkVerifier.verify_price_proof. now rewrite Hq, Hq'.
Qed.

(** X18. The comparison is made on 32 bits: adding a multiple of
    2^32 * 100000 to a non-negative claimed price changes neither the
    answer nor the ledger. *)
Theorem price_checked_modulo_u32 (env : Env) (proof_data : Bytes)
    (public_inputs : list Z) (expected_price expected_timestamp k : Z) :
  0 <= expected_price ->
  0 <= k ->
  verify_price_proof env proof_data public_inputs
                     (expected_price + k * 429496729600000)
                     expected_timestamp =
  verify_price_proof env proof_data public_inputs expected_price
                     expected_timestamp.
Proof.
  intros Hp Hk.
  assert (Hq : as_u32 (Z.quot (expected_price + k * 429496729600000) 100000)
               = as_u32 (Z.quot expected_price 100000)).
  { rewrite !Z.quot_div_nonneg by lia.
    replace (expected_price + k * 429496729600000)
      with (expected_price + (k * 2 ^ 32) * 100000) by lia.
    rewrite Z.div_add by lia.
    unfold as_u32. apply Z_mod_plus_full. }
  unfold ZkVerifier.verify_price_proof. now rewrite Hq.
Qed.

(** X19. The verifier reads the first public input only and never checks
    the timestamp: inputs with the same head get the same answer, and the
    answer, accepted or rejected and why, is the same for every
    timestamp. *)
Theorem verdict_ignores_timestamp_and_tail (env : Env) (proof_data : Bytes)
    (public_inputs public_inputs' : list Z)
    (expected_price expected_timestamp expected_timestamp' : Z) :
  head public_inputs = head public_inputs' ->
  verify_price_proof env proof_data public_inputs expected_price
                     expected_timestamp =
  verify_price_proof env proof_data public_inputs' expected_price
                     expected_timestamp /\
  fst (verify_price_proof env proof_data public_inputs expected_price
                          expected_timestamp) =
  fst (verify_price_proof env proof_data public_inputs' expected_price
                          expected_timestamp').
Proof.
  intros Hhead. unfold ZkVerifier.verify_price_proof. rewrite Hhead.
  split; [reflexivity |].
  destruct (validate_proof_structure proof_data); [reflexivity |].
  destruct (head public_inputs'); [|reflexivity].
  destruct (negb _); [reflexivity |].
  destruct (is_proof_used _ _); reflexivity.
Qed.

End Host.

Lemma verify_frame_witness :
  used_proofs
    (snd (ZkVerifier.verify_price_proof Scenario.toyKeccak empty_env
            Scenario.proof256 [30050] 3005000000 1700000000)) !! 7%N =
  used_proofs empty_env !! 7%N.
Proof.
  apply (verify_frame Scenario.toyKeccak empty_env Scenario.proof256 [30050]
           3005000000 1700000000).
  vm_compute. discriminate.
Defined.

Lemma price_checked_to_two_decimals_witness :
  ZkVerifier.verify_price_proof Scenario.toyKeccak empty_env Scenario.proof256
    [30050] 3005099999 1700000000 =
  ZkVerifier.verify_price_proof Scenario.toyKeccak empty_env Scenario.proof256
    [30050] (30050 * 100000) 1700000000.
Proof.
  apply (price_checked_to_two_decimals Scenario.toyKeccak empty_env
           Scenario.proof256 [30050] 30050 3005099999 1700000000); lia.
Defined.

Lemma price_checked_modulo_u32_witness :
  ZkVerifier.verify_price_proof Scenario.toyKeccak empty_env Scenario.proof256
    [30050] (3005000000 + 1 * 429496729600000) 1700000000 =
  ZkVerifier.verify_price_proof Scenario.toyKeccak empty_env Scenario.proof256
    [30050] 3005000000 1700000000.
Proof.
  apply (price_checked_modulo_u32 Scenario.toyKeccak empty_env
           Scenario.proof256 [30050] 3005000000 1700000000 1); lia.
Defined.

Lemma verdict_ignores_timestamp_and_tail_witness :
  ZkVerifier.verify_price_proof Scenario.toyKeccak empty_env Scenario.proof256
    [30050; 1; 2] 3005000000 1700000000 =
  ZkVerifier.verify_price_proof Scenario.toyKeccak empty_env Scenario.proof256
    [30050] 3005000000 1700000000 /\
  fst (ZkVerifier.verify_price_proof Scenario.toyKeccak empty_env
         Scenario.proof256 [30050; 1; 2] 3005000000 1700000000) =
  fst (ZkVerifier.verify_price_proof Scenario.toyKeccak empty_env
         Scenario.proof256 [30050] 3005000000 0).
Proof.
  apply (verdict_ignores_timestamp_and_tail Scenario.toyKeccak empty_env
           Scenario.proof256 [30050; 1; 2] [30050] 3005000000 1700000000 0).
  reflexivity.
Defined.

End VerifierMore.

(** ** The consensus circuit *)

Module ConsensusMore.
Import Js Consensus ZkVerifier.

(** X21. The circuit is symmetric in the two prices and does not constrain
    the asset identifier. *)
Theorem main_symmetric (p1 p2 : Z) (asset_id asset_id' : str) :
  main p1 p2 asset_id = main p2 p1 asset_id'.
Proof.
  unfold main, fadd.
  destruct (Z.gtb_spec p1 p2), (Z.gtb_spec p2 p1); try lia.
  - now rewrite (Z.add_comm p1 p2).
  - now rewrite (Z.add_comm p1 p2).
  - now replace p2 with p1 by lia.
Qed.

(** The gap of two prices below 2^128, as the circuit computes it. *)
Lemma diff_field (p1 p2 : Z) :
  0 <= p1 < 2 ^ 128 -> 0 <= p2 < 2 ^ 128 ->
  (if p1 >? p2 then fsub p1 p2 else fsub p2 p1) = Z.abs (p1 - p2).
Proof.
  intros H1 H2.
  change (2 ^ 128) with 340282366920938463463374607431768211456 in *.
  unfold fsub.
  destruct (Z.gtb_spec p1 p2); rewrite Z.mod_small by (unfold Fp; lia); lia.
Qed.

Lemma max_field (p1 p2 : Z) : (if p1 >? p2 then p1 else p2) = Z.max p1 p2.
Proof. destruct (Z.gtb_spec p1 p2); lia. Qed.

(** X22. On prices below 2^128 the [assert] of the circuit is the 7% test
    only where seven times the larger price is a multiple of 100: there it
    holds exactly when a hundred times the gap is at most seven times the
    larger price. Everywhere else the division in the field makes the
    threshold pass 2^128, and the circuit accepts the two prices whatever
    their gap. *)
Theorem main_tolerance_on_field (p1 p2 : Z) (asset_id : str) :
  0 <= p1 < 2 ^ 128 -> 0 <= p2 < 2 ^ 128 ->
  ((7 * Z.max p1 p2) mod 100 = 0 ->
   (main p1 p2 asset_id <> None <->
    100 * Z.abs (p1 - p2) <= 7 * Z.max p1 p2)) /\
  ((7 * Z.max p1 p2) mod 100 <> 0 -> main p1 p2 asset_id <> None).
Proof.
  intros H1 H2.
  assert (Hmax : 0 <= Z.max p1 p2 < 2 ^ 128) by lia.
  destruct (ConsensusFacts.threshold_field (Z.max p1 p2) Hmax)
    as [Hexact Hbig].
  unfold main. rewrite diff_field, max_field by assumption.
  split.
  - intros Hdiv. rewrite (Hexact Hdiv).
    assert (Hq : Z.abs (p1 - p2) <= Z.max p1 p2 * 7 / 100 <->
                 100 * Z.abs (p1 - p2) <= 7 * Z.max p1 p2).
    { split.
      - intros H.
        pose proof (Z.mul_div_le (Z.max p1 p2 * 7) 100 ltac:(lia)). lia.
      - intros H. apply Z.div_le_lower_bound; lia. }
    rewrite <- Hq.
    destruct (Z.leb_spec (Z.abs (p1 - p2)) (Z.max p1 p2 * 7 / 100));
      split; intros; try discriminate; try lia; congruence.
  - intros Hndiv. specialize (Hbig Hndiv).
    destruct (Z.leb_spec (Z.abs (p1 - p2))
                (fdiv (fmul (Z.max p1 p2) 7) 100)); [discriminate | lia].
Qed.

Lemma main_tolerance_on_field_witness :
  ((7 * Z.max 100 108) mod 100 = 0 ->
   (main 100 108 (lit "TSLA") <> None <->
    100 * Z.abs (100 - 108) <= 7 * Z.max 100 108)) /\
  ((7 * Z.max 100 108) mod 100 <> 0 -> main 100 108 (lit "TSLA") <> None).
Proof.
  apply (main_tolerance_on_field 100 108 (lit "TSLA")).
  - vm_compute. split; [discriminate | reflexivity].
  - vm_compute. split; [discriminate | reflexivity].
Defined.

(** The output of the circuit on a sum that is a multiple of 200000, and on
    a sum that is not. *)
Lemma output_field (p1 p2 : Z) :
  0 <= p1 < 2 ^ 128 -> 0 <= p2 < 2 ^ 128 ->
  ((p1 + p2) mod 200000 = 0 ->
   fdiv (fdiv (fadd p1 p2) 2) 100000 = (p1 + p2) / 200000) /\
  ((p1 + p2) mod 200000 <> 0 ->
   Fp <= 200000 * fdiv (fdiv (fadd p1 p2) 2) 100000).
Proof.
  intros H1 H2.
  change (2 ^ 128) with 340282366920938463463374607431768211456 in *.
  assert (Hsum : fadd p1 p2 = p1 + p2)
    by (unfold fadd; apply Z.mod_small; unfold Fp; lia).
  rewrite Hsum. split.
  - intros Hdiv.
    pose proof (proj2 (Z.div_exact (p1 + p2) 200000 ltac:(lia)) Hdiv) as Heq.
    assert (Hq : 0 <= (p1 + p2) / 200000 < 340282366920938463463374607431768211456).
    { split; [apply Z.div_pos; lia |].
      apply Z.div_lt_upper_bound; lia. }
    set (q := (p1 + p2) / 200000) in *.
    rewrite Heq.
    replace (200000 * q) with (2 * (100000 * q)) by lia.
    rewrite (ConsensusFacts.fdiv_exact 2 (100000 * q) ConsensusFacts.finv_2)
      by (unfold Fp; lia).
    apply (ConsensusFacts.fdiv_exact 100000 q ConsensusFacts.finv_100000).
    unfold Fp. lia.
  - intros Hndiv.
    pose proof (ConsensusFacts.fdiv_range (p1 + p2) 2) as Hhalf.
    pose proof (ConsensusFacts.fdiv_range (fdiv (p1 + p2) 2) 100000) as Hout.
    pose proof (ConsensusFacts.fdiv_mul (p1 + p2) 2 ConsensusFacts.finv_2)
      as Hmul2.
    pose proof (ConsensusFacts.fdiv_mul (fdiv (p1 + p2) 2) 100000
                  ConsensusFacts.finv_100000) as Hmul5.
    rewrite (Z.mod_small (p1 + p2)) in Hmul2 by (unfold Fp; lia).
    rewrite (Z.mod_small (fdiv (p1 + p2) 2)) in Hmul5 by lia.
    set (h := fdiv (p1 + p2) 2) in *.
    set (y := fdiv h 100000) in *.
    destruct (Z_lt_le_dec (200000 * y) Fp) as [Hlt | Hge]; [|exact Hge].
    exfalso. apply Hndiv.
    rewrite Z.mod_small in Hmul5 by lia.
    rewrite Z.mod_small in Hmul2 by lia.
    replace (p1 + p2) with (y * 200000) by lia.
    apply Z.mod_mul. lia.
Qed.

Lemma main_Some (p1 p2 avg : Z) (asset_id : str) :
  main p1 p2 asset_id = Some avg ->
  avg = fdiv (fdiv (fadd p1 p2) 2) 100000.
Proof.
  unfold main. destruct (_ <=? _); [|discriminate].
  intros H. now inversion H.
Qed.

(** X23. The output of the circuit on prices below 2^128 that it accepts:
    where the sum of the prices is a multiple of 200000 it is the integer
    average at two decimals, between the smaller and the larger price each
    divided by 100000; where it is not, the output is no price at all but
    a field element whose product with 200000 passes the modulus. *)
Theorem main_output_on_field (p1 p2 avg : Z) (asset_id : str) :
  0 <= p1 < 2 ^ 128 -> 0 <= p2 < 2 ^ 128 ->
  main p1 p2 asset_id = Some avg ->
  ((p1 + p2) mod 200000 = 0 ->
   avg = (p1 + p2) / 200000 /\
   Z.min p1 p2 / 100000 <= avg <= Z.max p1 p2 / 100000) /\
  ((p1 + p2) mod 200000 <> 0 -> Fp <= 200000 * avg).
Proof.
  intros H1 H2 Hmain.
  rewrite (main_Some p1 p2 avg asset_id Hmain).
  destruct (output_field p1 p2 H1 H2) as [Hexact Hinexact].
  split; [|exact Hinexact].
  intros Hdiv. rewrite (Hexact Hdiv). split; [reflexivity |].
  replace 200000 with (2 * 100000) by reflexivity.
  rewrite <- Z.div_div by lia.
  assert (Hmid : Z.min p1 p2 <= (p1 + p2) / 2 <= Z.max p1 p2).
  { split.
    - apply Z.div_le_lower_bound; lia.
    - apply Z.div_le_upper_bound; lia. }
  split; apply Z.div_le_mono; lia.
Qed.

Lemma main_output_on_field_witness :
  ((3000000000 + 3010000000) mod 200000 = 0 ->
   30050 = (3000000000 + 3010000000) / 200000 /\
   Z.min 3000000000 3010000000 / 100000 <= 30050
   <= Z.max 3000000000 3010000000 / 100000) /\
  ((3000000000 + 3010000000) mod 200000 <> 0 -> Fp <= 200000 * 30050).
Proof.
  apply (main_output_on_field 3000000000 3010000000 30050 (lit "TSLA")).
  - vm_compute. split; [discriminate | reflexivity].
  - vm_compute. split; [discriminate | reflexivity].
  - vm_compute. reflexivity.
Defined.

(** X24. The circuit and the verifier fit where the division is exact: when
    the circuit accepts two prices below 2^128 whose sum is a multiple of
    200000 and declares [avg], a submission of [avg] as first public input
    with the 7-decimal average [(p1 + p2) / 2] as claimed price passes the
    price check, and it is accepted if the proof payload is structurally
    valid, its hash is not recorded yet and [avg] fits in 32 bits. *)
Theorem circuit_output_accepted (keccak256 : Bytes -> N) (env : Env)
    (proof_data : Bytes) (p1 p2 avg : Z) (asset_id : str)
    (rest : list Z) (expected_timestamp : Z) :
  0 <= p1 < 2 ^ 128 -> 0 <= p2 < 2 ^ 128 ->
  main p1 p2 asset_id = Some avg ->
  (p1 + p2) mod 200000 = 0 ->
  avg < 2 ^ 32 ->
  validate_proof_structure proof_data = inr tt ->
  used_proofs env !! keccak256 proof_data = None ->
  verify_price_proof keccak256 env proof_data (avg :: rest) ((p1 + p2) / 2)
                     expected_timestamp =
  (inr true, store_used_proof env (keccak256 proof_data) expected_timestamp).
Proof.
  intros H1 H2 Hmain Hdiv Hfits Hvalid Hfree.
  pose proof (main_Some p1 p2 avg asset_id Hmain) as Havg.
  rewrite (proj1 (output_field p1 p2 H1 H2) Hdiv) in Havg.
  assert (Hhalf : 0 <= (p1 + p2) / 2) by (apply Z.div_pos; lia).
  assert (Hnonneg : 0 <= avg) by (subst avg; apply Z.div_pos; lia).
  unfold verify_price_proof, is_proof_used.
  rewrite Hvalid, Hfree. simpl.
  rewrite Z.quot_div_nonneg by lia.
  rewrite Z.div_div by lia. change (2 * 100000) with 200000.
  rewrite <- Havg.
  unfold as_u32. rewrite Z.mod_small by lia.
  now rewrite Z.eqb_refl.
Qed.

Lemma circuit_output_accepted_witness :
  verify_price_proof Scenario.toyKeccak empty_env Scenario.proof256
    [30050] ((3000000000 + 3010000000) / 2) 1700000000 =
  (inr true,
   store_used_proof empty_env (Scenario.toyKeccak Scenario.proof256)
     1700000000).
Proof.
  apply (circuit_output_accepted Scenario.toyKeccak empty_env
           Scenario.proof256 3000000000 3010000000 30050 (lit "TSLA")
           [] 1700000000).
  - vm_compute. split; [discriminate | reflexivity].
  - vm_compute. split; [discriminate | reflexivity].
  - vm_compute. reflexivity.
  - vm_compute. reflexivity.
  - vm_compute. reflexivity.
  - vm_compute. reflexivity.
  - reflexivity.
Defined.

End ConsensusMore.
